(** * nnptr: NotNull and sref (include/nnptr/sref.hpp)

    A shallow embedding of the two wrappers of the header: [NotNull<T>], which
    refuses a null payload, and [sref<T>], a [NotNull<std::shared_ptr<T>>]
    with value-like dereference and assignment through the reference.

    Conventions of the embedding.
    - A call either returns, or reaches [std::terminate()], or has no defined
      behaviour (dereferencing a null or dangling pointer): [outcome].
    - [#ifndef NO_NNPTR_CHECKS] is the [mode] argument of every function that
      contains such a block.
    - Raw pointers are addresses ([N], [nullptr] is [0]).  A derived-to-base
      pointer conversion is a function on addresses (the identity for single
      inheritance).
    - [std::shared_ptr] is the standard library's: a stored pointer and a
      control block holding the use count and the managed pointer.  Copying
      adds one to the count, destroying takes one away and deletes the
      managed object when the count reaches zero.
    - Objects of [sref<T>] live at addresses; [this == &other] compares
      those.
    - The pointee type brings its own copy constructor and assignment
      operator ([Copyable]); [Regular] says they copy the value.

    Definitions come first: the two classes, then client programs over
    them and the predicates the properties are stated with.  The properties
    follow, [NotNull] before [sref]. *)

From stdpp Require Import base option numbers gmap fin_maps.
From Stdlib Require Import NArith Lia.

Set Default Proof Using "Type".

(** ** Outcomes of a call *)

Inductive outcome (A : Type) : Type :=
  | Ret (a : A)          (* the call returns [a] *)
  | Terminate            (* std::terminate() was called: the process is gone *)
  | Undefined.           (* undefined behaviour *)
Arguments Ret {A} a.
Arguments Terminate {A}.
Arguments Undefined {A}.

#[global] Instance outcome_ret : MRet outcome := @Ret.
#[global] Instance outcome_bind : MBind outcome := λ A B f o,
  match o with
  | Ret a => f a
  | Terminate => Terminate
  | Undefined => Undefined
  end.

Definition returns {A} (o : outcome A) : bool :=
  match o with Ret _ => true | _ => false end.

(** ** Build configuration *)

Inductive mode : Set :=
  | Checked      (* default build *)
  | Unchecked.   (* NO_NNPTR_CHECKS (or NDEBUG) defined *)

Definition checks (m : mode) : bool :=
  match m with Checked => true | Unchecked => false end.

(** ** Pointer-like payloads *)

(** [details::is_comparable_to_nullptr<T>]: [t != nullptr] is a [bool]. *)
Class PointerLike (T : Type) := is_nullptr : T → bool.

(** [std::is_convertible<U, T>]: the implicit conversion from [U] to [T]. *)
Class ConvertibleTo (U T : Type) := convert : U → T.

(** The payloads' own comparison operators. *)
Class Comparable (T U : Type) := {
  cmp_eq : T → U → bool;
  cmp_ne : T → U → bool;
  cmp_lt : T → U → bool;
  cmp_le : T → U → bool;
  cmp_gt : T → U → bool;
  cmp_ge : T → U → bool;
}.

(** Raw pointers. *)
Abbreviation ptr := N (only parsing).
Definition nullptr : ptr := 0%N.

#[global] Instance ptr_pointer_like : PointerLike ptr := λ p, N.eqb p nullptr.
#[global] Instance ptr_convertible : ConvertibleTo ptr ptr := λ p, p.
#[global] Instance ptr_comparable : Comparable ptr ptr := {|
  cmp_eq p q := N.eqb p q;
  cmp_ne p q := negb (N.eqb p q);
  cmp_lt p q := N.ltb p q;
  cmp_le p q := N.leb p q;
  cmp_gt p q := N.ltb q p;
  cmp_ge p q := N.leb q p;
|}.

(** [std::shared_ptr<T>]: the stored pointer ([get()]) and the control block
    it shares ([None] for an empty handle). *)
Record shared_ptr : Set := SharedPtr {
  sp_get : ptr;
  sp_ctrl : option N;
}.

#[global] Instance shared_ptr_eq_dec : EqDecision shared_ptr.
Proof. solve_decision. Defined.

(** [sp == nullptr] is [!sp], that is [sp.get() == nullptr]. *)
#[global] Instance shared_ptr_pointer_like : PointerLike shared_ptr :=
  λ sp, N.eqb (sp_get sp) nullptr.
#[global] Instance shared_ptr_convertible : ConvertibleTo shared_ptr shared_ptr := λ sp, sp.
(** The comparison operators of [shared_ptr] compare the stored pointers. *)
#[global] Instance shared_ptr_comparable : Comparable shared_ptr shared_ptr := {|
  cmp_eq a b := N.eqb (sp_get a) (sp_get b);
  cmp_ne a b := negb (N.eqb (sp_get a) (sp_get b));
  cmp_lt a b := N.ltb (sp_get a) (sp_get b);
  cmp_le a b := negb (N.ltb (sp_get b) (sp_get a));
  cmp_gt a b := N.ltb (sp_get b) (sp_get a);
  cmp_ge a b := negb (N.ltb (sp_get a) (sp_get b));
|}.

(** ** class NotNull *)

Module NotNull.

(** [private: T ptr_;] *)
Record t (T : Type) : Type := mk { ptr_ : T }.
Arguments mk {T} ptr_.
Arguments ptr_ {T} _.

Section ops.
Context {T : Type} `{!PointerLike T}.

(** [template<typename U, ...> constexpr NotNull(U&& u)
      : ptr_(std::forward<U>(u))] *)
Definition ctor_fwd {U : Type} `{!ConvertibleTo U T} (m : mode) (u : U)
    : outcome (t T) :=
  let ptr_ := convert u in
  if checks m && is_nullptr ptr_ then Terminate else Ret (mk ptr_).

(** [constexpr NotNull(T u) : ptr_(std::move(u))] *)
Definition ctor (m : mode) (u : T) : outcome (t T) :=
  let ptr_ := u in
  if checks m && is_nullptr ptr_ then Terminate else Ret (mk ptr_).

(** [constexpr ... get() const] *)
Definition get (m : mode) (this : t T) : outcome T :=
  if checks m && is_nullptr (ptr_ this) then Terminate else Ret (ptr_ this).

(** [NotNull(const NotNull& other) = default;] *)
Definition copy (other : t T) : t T := mk (ptr_ other).

(** [NotNull& operator=(const NotNull& other) = default;] *)
Definition assign (this other : t T) : t T := mk (ptr_ other).

(** [constexpr operator T() const { return get(); }] *)
Definition to_T (m : mode) (this : t T) : outcome T := get m this.

(** [constexpr decltype(auto) operator->() const { return get(); }] *)
Definition arrow (m : mode) (this : t T) : outcome T := get m this.

(** [NotNull(U&& u)] with [U = NotNull<T>], as in
    [NotNull<T> b(std::move(a))]: the class has no move constructor, [ptr_]
    is initialised from [u] through the const [operator T()], and [u] stays
    as it was. *)
Definition ctor_move (m : mode) (u : t T) : outcome (t T) :=
  p ← to_T m u;
  if checks m && is_nullptr p then Terminate else Ret (mk p).

End ops.

(** [template<typename U, ...> constexpr NotNull(const NotNull<U>& other)
      : NotNull(other.get())]
    The argument [other.get()] is a [U], so the delegation selects the
    forwarding constructor. *)
Definition ctor_conv {T U : Type} `{!PointerLike T, !PointerLike U}
    `{!ConvertibleTo U T} (m : mode) (other : t U) : outcome (t T) :=
  u ← get m other; ctor_fwd m u.

(** The comparison operators: [lhs.get() OP rhs.get()]. *)
Section compare.
Context {T U : Type} `{!PointerLike T, !PointerLike U, !Comparable T U}.

Definition op_eq (m : mode) (lhs : t T) (rhs : t U) : outcome bool :=
  l ← get m lhs; r ← get m rhs; Ret (cmp_eq l r).

Definition op_ne (m : mode) (lhs : t T) (rhs : t U) : outcome bool :=
  l ← get m lhs; r ← get m rhs; Ret (cmp_ne l r).

Definition op_lt (m : mode) (lhs : t T) (rhs : t U) : outcome bool :=
  l ← get m lhs; r ← get m rhs; Ret (cmp_lt l r).

Definition op_le (m : mode) (lhs : t T) (rhs : t U) : outcome bool :=
  l ← get m lhs; r ← get m rhs; Ret (cmp_le l r).

Definition op_gt (m : mode) (lhs : t T) (rhs : t U) : outcome bool :=
  l ← get m lhs; r ← get m rhs; Ret (cmp_gt l r).

Definition op_ge (m : mode) (lhs : t T) (rhs : t U) : outcome bool :=
  l ← get m lhs; r ← get m rhs; Ret (cmp_ge l r).

End compare.

End NotNull.

(** ** The free store and std::shared_ptr *)

(** What [sref] asks of the pointee type: [X(other)] and [a = b]. *)
Class Copyable (V : Type) := {
  copy_construct : V → V;       (* the value of [X(other)] *)
  copy_assign : V → V → V;      (* [a = b]: the new value of [a] *)
}.

(** The pointee copies as a regular value does. *)
Class Regular (V : Type) `{!Copyable V} := {
  copy_construct_eq v : copy_construct v = v;
  copy_assign_eq a b : copy_assign a b = b;
}.

Record control_block : Set := ControlBlock {
  use_count : nat;
  managed : ptr;
}.

(** [NotNull<std::shared_ptr<T>> data_;] *)
Record sref : Set := Sref { data_ : NotNull.t shared_ptr }.

Record state (V : Type) : Type := State {
  objects : gmap N V;               (* objects made by [new], by address *)
  blocks : gmap N control_block;    (* control blocks *)
  srefs : gmap N sref;              (* the [sref] objects, by address *)
}.
Arguments State {V} objects blocks srefs.
Arguments objects {V} s.
Arguments blocks {V} s.
Arguments srefs {V} s.

(** Calls that read and change the state. *)
Definition M (V A : Type) : Type := state V → outcome (A * state V).

#[global] Instance M_ret {V} : MRet (M V) := λ A a s, Ret (a, s).
#[global] Instance M_bind {V} : MBind (M V) := λ A B f c s,
  match c s with
  | Ret (a, s') => f a s'
  | Terminate => Terminate
  | Undefined => Undefined
  end.

Definition lift {V A} (o : outcome A) : M V A := λ s,
  match o with
  | Ret a => Ret (a, s)
  | Terminate => Terminate
  | Undefined => Undefined
  end.

Definition empty_state {V} : state V := State ∅ ∅ ∅.

Section store.
Context {V : Type}.

(** [new X(v)]: an address that is not null and holds no object. *)
Definition new_ (v : V) : M V ptr := λ s,
  let p := fresh ({[nullptr]} ∪ dom (objects s)) in
  Ret (p, State (<[p := v]> (objects s)) (blocks s) (srefs s)).

Definition load (p : ptr) : M V V := λ s,
  match objects s !! p with
  | Some v => Ret (v, s)
  | None => Undefined
  end.

Definition store (p : ptr) (v : V) : M V unit := λ s,
  match objects s !! p with
  | Some _ => Ret ((), State (<[p := v]> (objects s)) (blocks s) (srefs s))
  | None => Undefined
  end.

(** [std::shared_ptr<T>{ p }]: a new control block that owns [p]. *)
Definition sp_make (p : ptr) : M V shared_ptr := λ s,
  let c := fresh (dom (blocks s)) in
  Ret (SharedPtr p (Some c),
       State (objects s) (<[c := ControlBlock 1 p]> (blocks s)) (srefs s)).

(** Copy construction of a [shared_ptr]: one more owner. *)
Definition sp_copy (sp : shared_ptr) : M V shared_ptr := λ s,
  match sp_ctrl sp with
  | None => Ret (sp, s)
  | Some c =>
      match blocks s !! c with
      | Some cb =>
          Ret (sp, State (objects s)
                     (<[c := ControlBlock (S (use_count cb)) (managed cb)]> (blocks s))
                     (srefs s))
      | None => Undefined
      end
  end.

(** Destruction of a [shared_ptr]: one owner fewer; the last one deletes the
    managed object and the control block. *)
Definition sp_drop (sp : shared_ptr) : M V unit := λ s,
  match sp_ctrl sp with
  | None => Ret ((), s)
  | Some c =>
      match blocks s !! c with
      | Some cb =>
          match use_count cb with
          | 0 => Undefined
          | 1 =>
              if N.eqb (managed cb) nullptr
              then Ret ((), State (objects s) (delete c (blocks s)) (srefs s))
              else
                match objects s !! managed cb with
                | Some _ =>
                    Ret ((), State (delete (managed cb) (objects s))
                               (delete c (blocks s)) (srefs s))
                | None => Undefined
                end
          | S n => Ret ((), State (objects s)
                              (<[c := ControlBlock n (managed cb)]> (blocks s))
                              (srefs s))
          end
      | None => Undefined
      end
  end.

(** [shared_ptr<Y>(shared_ptr<T>&& r)]: the stored pointer converted, the
    share taken over. *)
Definition sp_upcast (up : ptr → ptr) (sp : shared_ptr) : shared_ptr :=
  SharedPtr (up (sp_get sp)) (sp_ctrl sp).

(** [*sp] of a [shared_ptr]. *)
Definition sp_deref (sp : shared_ptr) : M V ptr :=
  if N.eqb (sp_get sp) nullptr then lift Undefined else mret (sp_get sp).

End store.

(** [constexpr decltype(auto) operator*() const { return *get(); }] of
    [NotNull<std::shared_ptr<T>>]: [get()] returns a copy of the payload,
    which is gone when [operator*] returns. *)
Definition NotNull_star {V : Type} (m : mode) (this : NotNull.t shared_ptr)
    : M V ptr :=
  sp ← lift (NotNull.get m this);
  tmp ← sp_copy sp;
  p ← sp_deref tmp;
  _ ← sp_drop tmp;
  mret p.

(** ** class sref *)

Module Sref.
Section ops.
Context {V : Type} `{!Copyable V}.

(** The member [data_] of the object at [this]. *)
Definition member (this : N) : M V (NotNull.t shared_ptr) := λ s,
  match srefs s !! this with
  | Some r => Ret (data_ r, s)
  | None => Undefined
  end.

(** The end of a constructor: the object at [this] exists. *)
Definition construct (this : N) (d : NotNull.t shared_ptr) : M V unit := λ s,
  Ret ((), State (objects s) (blocks s) (<[this := Sref d]> (srefs s))).

(** [sref(X&& other) : data_{ std::shared_ptr<T>{ new X(other) } }] and
    [sref(const X& other)], which has the same initializer. *)
Definition ctor_value (m : mode) (this : N) (other : V) : M V unit :=
  p ← new_ (copy_construct other);
  sp ← sp_make p;
  d ← lift (NotNull.ctor m sp);
  construct this d.

(** [sref(const sref<T>& other) : data_{ other.data_ }]: the defaulted copy
    of [NotNull] copies the [shared_ptr]. *)
Definition ctor_copy (this other : N) : M V unit :=
  d ← member other;
  _ ← sp_copy (NotNull.ptr_ d);
  construct this (NotNull.copy d).

(** [sref(const sref<T>&& corpse) : data_{ corpse.data_ }] *)
Definition ctor_move (this corpse : N) : M V unit :=
  d ← member corpse;
  _ ← sp_copy (NotNull.ptr_ d);
  construct this (NotNull.copy d).

(** [sref(std::shared_ptr<T>& data) : data_{ data }] *)
Definition ctor_sptr (m : mode) (this : N) (data : shared_ptr) : M V unit :=
  u ← sp_copy data;
  d ← lift (NotNull.ctor m u);
  construct this d.

(** [sref(T* data) : data_{ std::shared_ptr<T>{ data } }] *)
Definition ctor_raw (m : mode) (this : N) (data : ptr) : M V unit :=
  sp ← sp_make data;
  d ← lift (NotNull.ctor m sp);
  construct this d.

(** The end of the destructor: the object at [this] is gone. *)
Definition destruct (this : N) : M V unit := λ s,
  Ret ((), State (objects s) (blocks s) (delete this (srefs s))).

(** The implicit destructor destroys the member [data_]. *)
Definition dtor (this : N) : M V unit :=
  d ← member this;
  _ ← sp_drop (NotNull.ptr_ d);
  destruct this.

(** [T* operator->() { return data_.get().get(); }]: [data_.get()] is a
    temporary [shared_ptr]. *)
Definition arrow (m : mode) (this : N) : M V ptr :=
  d ← member this;
  sp ← lift (NotNull.get m d);
  tmp ← sp_copy sp;
  _ ← sp_drop tmp;
  mret (sp_get tmp).

(** [T& operator*() { return *data_; }]; the reference is the address of
    the pointee. *)
Definition star (m : mode) (this : N) : M V ptr :=
  d ← member this;
  NotNull_star m d.

(** [T& get() { return *data_; }] *)
Definition get (m : mode) (this : N) : M V ptr := star m this.

(** [operator T&() { return *data_; }] *)
Definition to_T (m : mode) (this : N) : M V ptr := star m this.

(** [std::shared_ptr<T> sptr() const { return data_; }]: through
    [NotNull::operator T()]; the caller receives a share. *)
Definition sptr (m : mode) (this : N) : M V shared_ptr :=
  d ← member this;
  sp ← lift (NotNull.to_T m d);
  sp_copy sp.

(** [sref<T>& operator=(const sref<T>& other)]:
      [if (this == &other) return *this;
       *this->data_ = *other.data_;
       return *this;]
    The assignment is the pointee type's own. *)
Definition assign (m : mode) (this other : N) : M V N :=
  if decide (this = other) then mret this
  else
    d1 ← member this;
    lhs ← NotNull_star m d1;
    d2 ← member other;
    rhs ← NotNull_star m d2;
    b ← load rhs;
    a ← load lhs;
    _ ← store lhs (copy_assign a b);
    mret this.

(** [operator sref<Y>()]:
      [std::shared_ptr<Y> py = data_.get(); return py;]
    [up] is the conversion from [T*] to [Y*]; the result is built at
    [result] by [sref<Y>(std::shared_ptr<Y>&)], then [py] is destroyed. *)
Definition to_sref (m : mode) (up : ptr → ptr) (result this : N) : M V unit :=
  d ← member this;
  sp ← lift (NotNull.get m d);
  tmp ← sp_copy sp;
  let py := sp_upcast up tmp in
  _ ← ctor_sptr m result py;
  sp_drop py.

(** Uses of the reference a client gets from [operator*], [get()] or
    [operator T&]. *)
Definition read (m : mode) (this : N) : M V V :=
  p ← star m this; load p.

Definition modify (m : mode) (this : N) (f : V → V) : M V unit :=
  p ← star m this; v ← load p; store p (f v).

End ops.
End Sref.

#[global] Instance N_copyable : Copyable N := {|
  copy_construct v := v;
  copy_assign _ b := b;
|}.

(** ** Client programs over NotNull objects

    The operations the class offers to its clients, run on a store of
    [NotNull<T>] objects held by address.  Reads record the value they hand
    out.  A conversion keeps the payload type [T] and goes through the
    [ConvertibleTo T T] at hand, which need not be the identity. *)

Module Client.
Section ops.
Context {T : Type} `{!PointerLike T, !ConvertibleTo T T}.

Inductive op : Type :=
  | Construct (x : N) (u : T)        (* NotNull<T> x(u), by NotNull(T) *)
  | ConstructFwd (x : N) (u : T)     (* NotNull<T> x(u), by NotNull(U&&) *)
  | ConstructFrom (x y : N)          (* NotNull<T> x(y), y a NotNull<U> *)
  | Copy (x y : N)                   (* NotNull<T> x(y) *)
  | Move (x y : N)                   (* NotNull<T> x(std::move(y)) *)
  | Assign (x y : N)                 (* x = y *)
  | Get (x : N)                      (* x.get() *)
  | ToT (x : N)                      (* T(x) *)
  | Arrow (x : N)                    (* x.operator->() *)
  | Destroy (x : N).                 (* x goes out of scope *)

Definition object (st : gmap N (NotNull.t T)) (x : N) : outcome (NotNull.t T) :=
  match st !! x with
  | Some w => Ret w
  | None => Undefined
  end.

Definition step (m : mode) (o : op) (st : gmap N (NotNull.t T))
    : outcome (list T * gmap N (NotNull.t T)) :=
  match o with
  | Construct x u => w ← NotNull.ctor m u; Ret ([], <[x := w]> st)
  | ConstructFwd x u => w ← NotNull.ctor_fwd m u; Ret ([], <[x := w]> st)
  | ConstructFrom x y =>
      other ← object st y; w ← NotNull.ctor_conv m other; Ret ([], <[x := w]> st)
  | Copy x y => other ← object st y; Ret ([], <[x := NotNull.copy other]> st)
  | Move x y =>
      other ← object st y; w ← NotNull.ctor_move m other; Ret ([], <[x := w]> st)
  | Assign x y =>
      this ← object st x; other ← object st y;
      Ret ([], <[x := NotNull.assign this other]> st)
  | Get x => this ← object st x; v ← NotNull.get m this; Ret ([v], st)
  | ToT x => this ← object st x; v ← NotNull.to_T m this; Ret ([v], st)
  | Arrow x => this ← object st x; v ← NotNull.arrow m this; Ret ([v], st)
  | Destroy x => _ ← object st x; Ret ([], delete x st)
  end.

Fixpoint run (m : mode) (ops : list op) (st : gmap N (NotNull.t T))
    : outcome (list T * gmap N (NotNull.t T)) :=
  match ops with
  | [] => Ret ([], st)
  | o :: ops =>
      r ← step m o st;
      r' ← run m ops r.2;
      Ret (r.1 ++ r'.1, r'.2)
  end.

(** Every object of the store holds a payload that is not null. *)
Definition all_valid (st : gmap N (NotNull.t T)) : Prop :=
  map_Forall (λ _ w, is_nullptr (NotNull.ptr_ w) = false) st.

End ops.
Arguments op T : clear implicits.
End Client.

(** ** Reading a state *)

Section views.
Context {V : Type}.

(** The [shared_ptr] inside the [sref] at [x]. *)
Definition handle (s : state V) (x : N) : option shared_ptr :=
  r ← srefs s !! x; Some (NotNull.ptr_ (data_ r)).

(** The control block a [shared_ptr] shares. *)
Definition block (s : state V) (sp : shared_ptr) : option control_block :=
  c ← sp_ctrl sp; blocks s !! c.

(** The value of the object the [sref] at [x] refers to. *)
Definition pointee (s : state V) (x : N) : option V :=
  sp ← handle s x; objects s !! sp_get sp.

(** One owner more, one owner fewer. *)
Definition one_more (cb : control_block) : control_block :=
  ControlBlock (S (use_count cb)) (managed cb).
Definition one_fewer (cb : control_block) : control_block :=
  ControlBlock (pred (use_count cb)) (managed cb).

End views.

(** ** Pointee types and states used as examples *)

#[global] Instance N_regular : Regular N.
Proof. by split. Qed.

(** A pointee whose assignment operator counts its calls:
    [struct counted { int value; int assigned;
       counted& operator=(const counted& o)
       { value = o.value; ++assigned; return *this; } };] *)
Record counted : Set := Counted { value : N; assigned : nat }.

#[global] Instance counted_copyable : Copyable counted := {|
  copy_construct v := v;
  copy_assign a b := Counted (value b) (S (assigned a));
|}.

(** The state a program is in after running [c] from the empty state. *)
Definition state_after {V A} (c : M V A) : state V :=
  match c empty_state with
  | Ret (_, s) => s
  | _ => empty_state
  end.

(** [sref<int> r100(9);] *)
Definition one_ref : state N :=
  state_after (Sref.ctor_value Checked 100 9%N).

(** [sref<int> r100(9); sref<int> r101(r100); sref<int> r102(5);] *)
Definition three_refs : state N :=
  state_after (_ ← Sref.ctor_value Checked 100 9%N;
               _ ← Sref.ctor_copy 101 100;
               Sref.ctor_value Checked 102 5%N).

(** [sref<counted> r100(counted{7, 0}); sref<counted> r101(r100);] *)
Definition two_counted : state counted :=
  state_after (_ ← Sref.ctor_value Checked 100 (Counted 7 0);
               Sref.ctor_copy 101 100).

(** A client program over [NotNull<T*>] objects. *)
Definition client_ops : list (Client.op N) :=
  [Client.Construct 1 7%N; Client.Copy 2 1; Client.Move 3 2; Client.Get 3;
   Client.ConstructFwd 4 8%N; Client.Assign 1 4; Client.ToT 1;
   Client.ConstructFrom 5 1; Client.Destroy 2; Client.Arrow 5].

(** The store [client_ops] ends with. *)
Definition client_store : gmap N (NotNull.t N) :=
  {[ 1%N := NotNull.mk 8%N; 3%N := NotNull.mk 7%N;
     4%N := NotNull.mk 8%N; 5%N := NotNull.mk 8%N ]}.

(** ** Ownership *)

(** The number of [sref] objects that share control block [c]. *)
Definition owners (r : gmap N sref) (c : N) : nat :=
  size (filter (λ xr : N * sref, sp_ctrl (NotNull.ptr_ (data_ xr.2)) = Some c) r).

(** Shared ownership in good order: every [sref] holds a pointer that is not
    null and a share of a control block; a control block counts at least the
    [sref] objects that share it, at least one, and its managed object
    exists; no object is managed by two control blocks. *)
Record owned {V : Type} (s : state V) : Prop := Owned {
  owned_handle x sp :
    handle s x = Some sp → is_nullptr sp = false ∧ is_Some (block s sp);
  owned_block c cb :
    blocks s !! c = Some cb →
    owners (srefs s) c ≤ use_count cb ∧ 0 < use_count cb
    ∧ managed cb ≠ nullptr ∧ is_Some (objects s !! managed cb);
  owned_managed c c' cb cb' :
    blocks s !! c = Some cb → blocks s !! c' = Some cb' →
    managed cb = managed cb' → c = c';
}.

(** ** Client programs over sref objects

    The operations of [sref] as a client uses them: a constructor builds an
    object at an address that holds none, everything else works on an object
    that exists.  [up] is the pointer conversion of the one conversion
    [operator sref<Y>] the program uses.  Reads record the value read. *)

Module SrefClient.
Section ops.
Context {V : Type} `{!Copyable V}.

Inductive op : Type :=
  | New (x : N) (v : V)          (* sref<T> x(v); *)
  | Raw (x : N) (v : V)          (* sref<T> x(new T(v)); *)
  | Copy (x y : N)               (* sref<T> x(y); *)
  | Move (x y : N)               (* sref<T> x(std::move(y)); *)
  | Upcast (x y : N)             (* sref<Y> x = y; *)
  | Assign (x y : N)             (* x = y; *)
  | Read (x : N)                 (* T v = *x; *)
  | Modify (x : N) (f : V → V)   (* f(x.get()); *)
  | Arrow (x : N)                (* x.operator->() *)
  | Sptr (x : N)                 (* auto h = x.sptr();  h is kept *)
  | Destroy (x : N).             (* x goes out of scope *)

(** Storage for a new object. *)
Definition storage (x : N) : M V unit := λ s,
  match srefs s !! x with
  | None => Ret ((), s)
  | Some _ => Undefined
  end.

Definition step (m : mode) (up : N → N) (o : op) : M V (list V) :=
  match o with
  | New x v => _ ← storage x; _ ← Sref.ctor_value m x v; mret []
  | Raw x v => _ ← storage x; p ← new_ v; _ ← Sref.ctor_raw m x p; mret []
  | Copy x y => _ ← storage x; _ ← Sref.ctor_copy x y; mret []
  | Move x y => _ ← storage x; _ ← Sref.ctor_move x y; mret []
  | Upcast x y => _ ← storage x; _ ← Sref.to_sref m up x y; mret []
  | Assign x y => _ ← Sref.assign m x y; mret []
  | Read x => v ← Sref.read m x; mret [v]
  | Modify x f => _ ← Sref.modify m x f; mret []
  | Arrow x => _ ← Sref.arrow m x; mret []
  | Sptr x => _ ← Sref.sptr m x; mret []
  | Destroy x => _ ← Sref.dtor x; mret []
  end.

Fixpoint run (m : mode) (up : N → N) (ops : list op) : M V (list V) :=
  match ops with
  | [] => mret []
  | o :: ops => vs ← step m up o; ws ← run m up ops; mret (vs ++ ws)
  end.

End ops.
Arguments op V : clear implicits.
End SrefClient.

(** The demonstration program, on [int]:
    [sref<int> p1(new int{9}); sref<int> p3(p1); read p3;
     sref<int> p5(new int{27}); p3 = p5; read p1;
     sref<int> a = p1; p1 and p5 go; read a.] *)
Definition sref_ops : list (SrefClient.op N) :=
  [SrefClient.Raw 1 9%N; SrefClient.Copy 3 1; SrefClient.Read 3;
   SrefClient.Raw 5 27%N; SrefClient.Assign 3 5; SrefClient.Read 1;
   SrefClient.Upcast 7 1; SrefClient.Destroy 1; SrefClient.Destroy 5;
   SrefClient.Destroy 3; SrefClient.Read 7].

(** Every [sref] points at the object its control block manages: the state
    of a program whose pointer conversions keep the address. *)
Definition plain {V : Type} (s : state V) : Prop :=
  ∀ x sp cb, handle s x = Some sp → block s sp = Some cb → sp_get sp = managed cb.

(** What a well-behaved client does: it builds objects where there is none
    and uses objects that exist. *)
Definition allowed {V : Type} (s : state V) (o : SrefClient.op V) : bool :=
  match o with
  | SrefClient.New x _ | SrefClient.Raw x _ => bool_decide (srefs s !! x = None)
  | SrefClient.Copy x y | SrefClient.Move x y | SrefClient.Upcast x y =>
      bool_decide (srefs s !! x = None) && bool_decide (is_Some (srefs s !! y))
  | SrefClient.Assign x y =>
      bool_decide (is_Some (srefs s !! x)) && bool_decide (is_Some (srefs s !! y))
  | SrefClient.Read x | SrefClient.Modify x _ | SrefClient.Arrow x
  | SrefClient.Sptr x | SrefClient.Destroy x =>
      bool_decide (is_Some (srefs s !! x))
  end.

(** ** Hashing *)

(** [std::hash<T>] of the payload type. *)
Class Hashable (T : Type) := hash_of : T → N.

(** [std::hash<nnptr::NotNull<T>>::operator()]:
    [return hash<T>{}(value.get());] *)
Definition NotNull_hash {T : Type} `{!PointerLike T, !Hashable T} (m : mode)
    (value : NotNull.t T) : outcome N :=
  v ← NotNull.get m value; Ret (hash_of v).

(** Pointers hash to their address, shared pointers to their stored
    pointer. *)
#[global] Instance ptr_hashable : Hashable ptr := λ p, p.
#[global] Instance shared_ptr_hashable : Hashable shared_ptr := λ sp, sp_get sp.

(** ** The two builds side by side *)

(** A call of the unchecked build does what the call of the checked build
    does, unless that one ends in [std::terminate()]. *)
Definition agree {A : Type} (checked unchecked : outcome A) : Prop :=
  checked ≠ Terminate → unchecked = checked.

(** ** Accounting *)

(** What one operation of a client does to a state. *)
Inductive change {V : Type} (s : state V) : state V → Prop :=
  | change_none : change s s
  | change_new x p c v :
      srefs s !! x = None → objects s !! p = None → blocks s !! c = None →
      p ≠ nullptr →
      change s (State (<[p := v]> (objects s))
                  (<[c := ControlBlock 1 p]> (blocks s))
                  (<[x := Sref (NotNull.mk (SharedPtr p (Some c)))]> (srefs s)))
  | change_share x sp c cb :
      srefs s !! x = None → is_nullptr sp = false →
      sp_ctrl sp = Some c → blocks s !! c = Some cb →
      change s (State (objects s) (<[c := one_more cb]> (blocks s))
                  (<[x := Sref (NotNull.mk sp)]> (srefs s)))
  | change_store p v :
      is_Some (objects s !! p) →
      change s (State (<[p := v]> (objects s)) (blocks s) (srefs s))
  | change_leave x sp c cb :
      srefs s !! x = Some (Sref (NotNull.mk sp)) →
      sp_ctrl sp = Some c → blocks s !! c = Some cb → 2 ≤ use_count cb →
      change s (State (objects s) (<[c := one_fewer cb]> (blocks s))
                  (delete x (srefs s)))
  | change_last x sp c cb :
      srefs s !! x = Some (Sref (NotNull.mk sp)) →
      sp_ctrl sp = Some c → blocks s !! c = Some cb → use_count cb = 1 →
      change s (State (delete (managed cb) (objects s)) (delete c (blocks s))
                  (delete x (srefs s))).

(** The books balance: a control block counts exactly the [sref] objects
    that share it, and every object is managed by a control block. *)
Definition tight {V : Type} (s : state V) : Prop :=
  (∀ c cb, blocks s !! c = Some cb → use_count cb = owners (srefs s) c)
  ∧ (∀ p, is_Some (objects s !! p) →
          ∃ c cb, blocks s !! c = Some cb ∧ managed cb = p).

(** The program hands no shared pointer out: it does not call [sptr()]. *)
Definition sptr_free {V : Type} (ops : list (SrefClient.op V)) : bool :=
  forallb (λ o, match o with SrefClient.Sptr _ => false | _ => true end) ops.

(** * Properties *)

(** ** NotNull: construction and reads *)

Section NotNull_facts.
Context {T : Type} `{!PointerLike T}.

Lemma ctor_Ret_inv (m : mode) (u : T) (w : NotNull.t T) :
  NotNull.ctor m u = Ret w →
  NotNull.ptr_ w = u ∧ (m = Checked → is_nullptr u = false).
Proof.
  unfold NotNull.ctor. destruct m; simpl.
  - destruct (is_nullptr u) eqn:E; [discriminate|]. intros [= <-]. auto.
  - intros [= <-]. split; [done|discriminate].
Qed.

Lemma ctor_fwd_Ret_inv {U : Type} `{!ConvertibleTo U T} (m : mode) (u : U)
    (w : NotNull.t T) :
  NotNull.ctor_fwd m u = Ret w →
  NotNull.ptr_ w = convert u ∧ (m = Checked → is_nullptr (convert u) = false).
Proof.
  unfold NotNull.ctor_fwd. destruct m; simpl.
  - destruct (is_nullptr (convert u)) eqn:E; [discriminate|]. intros [= <-]. auto.
  - intros [= <-]. split; [done|discriminate].
Qed.

Lemma get_Ret_inv (m : mode) (w : NotNull.t T) (v : T) :
  NotNull.get m w = Ret v →
  v = NotNull.ptr_ w ∧ (m = Checked → is_nullptr v = false).
Proof.
  unfold NotNull.get. destruct m; simpl.
  - destruct (is_nullptr (NotNull.ptr_ w)) eqn:E; [discriminate|]. intros [= <-]. auto.
  - intros [= <-]. split; [done|discriminate].
Qed.

Lemma get_valid (m : mode) (w : NotNull.t T) :
  is_nullptr (NotNull.ptr_ w) = false → NotNull.get m w = Ret (NotNull.ptr_ w).
Proof. unfold NotNull.get. intros ->. by rewrite andb_false_r. Qed.

Lemma ctor_move_Ret_inv (m : mode) (u w : NotNull.t T) :
  NotNull.ctor_move m u = Ret w →
  NotNull.ptr_ w = NotNull.ptr_ u ∧ (m = Checked → is_nullptr (NotNull.ptr_ u) = false).
Proof.
  unfold NotNull.ctor_move, NotNull.to_T.
  destruct (NotNull.get m u) as [v| |] eqn:G; simpl; try discriminate.
  apply get_Ret_inv in G as [-> G].
  destruct m; simpl.
  - rewrite G by done. intros [= <-]. auto.
  - intros [= <-]. split; [done|discriminate].
Qed.

(** C2. In a checked build a null value never gets through: both
    constructors, given a value that compares equal to [nullptr], and the
    read accessors, on a payload that compares equal to [nullptr], end in
    [std::terminate()].  The call does not return (no value, no error code
    reaches the caller), and whatever the caller sequenced after it does
    not run. *)
Theorem null_terminates (u : T) :
  is_nullptr u = true →
  NotNull.ctor Checked u = Terminate
  ∧ (∀ (U : Type) (conv : ConvertibleTo U T) (u' : U),
       convert u' = u → NotNull.ctor_fwd Checked u' = Terminate)
  ∧ NotNull.get Checked (NotNull.mk u) = Terminate
  ∧ NotNull.to_T Checked (NotNull.mk u) = Terminate
  ∧ NotNull.arrow Checked (NotNull.mk u) = Terminate
  ∧ returns (NotNull.ctor Checked u) = false
  ∧ returns (NotNull.get Checked (NotNull.mk u)) = false
  ∧ (∀ (B : Type) (k : NotNull.t T → outcome B),
       (NotNull.ctor Checked u ≫= k) = Terminate)
  ∧ (∀ (B : Type) (k : T → outcome B),
       (NotNull.get Checked (NotNull.mk u) ≫= k) = Terminate).
Proof.
  intros Hu.
  assert (Hc : NotNull.ctor Checked u = Terminate).
  { unfold NotNull.ctor. simpl. by rewrite Hu. }
  assert (Hg : NotNull.get Checked (NotNull.mk u) = Terminate).
  { unfold NotNull.get. simpl. by rewrite Hu. }
  repeat split; try done.
  - intros U conv u' <-. unfold NotNull.ctor_fwd. simpl. by rewrite Hu.
  - by rewrite Hc.
  - by rewrite Hg.
  - intros B k. by rewrite Hc.
  - intros B k. by rewrite Hg.
Qed.

(** C3. A value that is not null is accepted by the constructors in either
    build, [get()] of the new wrapper returns that value, and the conversion
    to [T] returns what [get()] returns. *)
Theorem ctor_get (m : mode) (v : T) :
  is_nullptr v = false →
  ∃ w : NotNull.t T,
    NotNull.ctor m v = Ret w
    ∧ (∀ (conv : ConvertibleTo T T), (∀ x : T, convert x = x) →
         NotNull.ctor_fwd m v = Ret w)
    ∧ NotNull.get m w = Ret v
    ∧ NotNull.to_T m w = NotNull.get m w.
Proof.
  intros Hv. exists (NotNull.mk v). repeat split.
  - unfold NotNull.ctor. by rewrite Hv, andb_false_r.
  - intros conv Hid. unfold NotNull.ctor_fwd. by rewrite Hid, Hv, andb_false_r.
  - by apply get_valid.
Qed.

End NotNull_facts.

Lemma null_terminates_witness :
  is_nullptr nullptr = true ∧ NotNull.ctor Checked nullptr = Terminate.
Proof.
  split; [reflexivity|].
  apply (null_terminates nullptr). reflexivity.
Defined.

Lemma ctor_get_witness :
  is_nullptr (SharedPtr 8 (Some 0%N)) = false
  ∧ ∃ w, NotNull.ctor Checked (SharedPtr 8 (Some 0%N)) = Ret w
         ∧ NotNull.get Checked w = Ret (SharedPtr 8 (Some 0%N)).
Proof.
  split; [reflexivity|].
  destruct (ctor_get Checked (SharedPtr 8 (Some 0%N)) eq_refl) as (w & Hc & _ & Hg & _).
  exists w. split; assumption.
Defined.

(** ** NotNull: comparisons *)

Section NotNull_compare.
Context {T U : Type} `{!PointerLike T, !PointerLike U, !Comparable T U}.

(** C8. Whenever both [get()] calls return, each of the six comparison
    operators on two wrappers returns what the payloads' own operator gives
    on the two values read; a wrapper whose payload is not null always reads,
    so two such wrappers compare as their payloads do. *)
Theorem compare_delegates (m : mode) (a : NotNull.t T) (b : NotNull.t U) (x : T) (y : U) :
  NotNull.get m a = Ret x →
  NotNull.get m b = Ret y →
  NotNull.op_eq m a b = Ret (cmp_eq x y)
  ∧ NotNull.op_ne m a b = Ret (cmp_ne x y)
  ∧ NotNull.op_lt m a b = Ret (cmp_lt x y)
  ∧ NotNull.op_le m a b = Ret (cmp_le x y)
  ∧ NotNull.op_gt m a b = Ret (cmp_gt x y)
  ∧ NotNull.op_ge m a b = Ret (cmp_ge x y)
  ∧ x = NotNull.ptr_ a ∧ y = NotNull.ptr_ b.
Proof.
  intros Ha Hb.
  unfold NotNull.op_eq, NotNull.op_ne, NotNull.op_lt, NotNull.op_le,
    NotNull.op_gt, NotNull.op_ge.
  rewrite Ha, Hb. simpl.
  apply get_Ret_inv in Ha as [-> _]. apply get_Ret_inv in Hb as [-> _].
  by repeat split.
Qed.

Lemma compare_valid (m : mode) (a : NotNull.t T) (b : NotNull.t U) :
  is_nullptr (NotNull.ptr_ a) = false →
  is_nullptr (NotNull.ptr_ b) = false →
  NotNull.op_eq m a b = Ret (cmp_eq (NotNull.ptr_ a) (NotNull.ptr_ b))
  ∧ NotNull.op_ne m a b = Ret (cmp_ne (NotNull.ptr_ a) (NotNull.ptr_ b))
  ∧ NotNull.op_lt m a b = Ret (cmp_lt (NotNull.ptr_ a) (NotNull.ptr_ b))
  ∧ NotNull.op_le m a b = Ret (cmp_le (NotNull.ptr_ a) (NotNull.ptr_ b))
  ∧ NotNull.op_gt m a b = Ret (cmp_gt (NotNull.ptr_ a) (NotNull.ptr_ b))
  ∧ NotNull.op_ge m a b = Ret (cmp_ge (NotNull.ptr_ a) (NotNull.ptr_ b)).
Proof.
  intros Ha Hb.
  destruct (compare_delegates m a b _ _ (get_valid m a Ha) (get_valid m b Hb))
    as (?&?&?&?&?&?&_).
  by repeat split.
Qed.

End NotNull_compare.

Lemma compare_delegates_witness :
  NotNull.get Checked (NotNull.mk 4%N) = Ret 4%N
  ∧ NotNull.get Checked (NotNull.mk 9%N) = Ret 9%N
  ∧ NotNull.op_lt Checked (NotNull.mk 4%N) (NotNull.mk 9%N) = Ret true
  ∧ NotNull.op_eq Checked (NotNull.mk 4%N) (NotNull.mk 9%N) = Ret false.
Proof.
  split; [reflexivity|]. split; [reflexivity|].
  destruct (compare_delegates Checked (NotNull.mk 4%N) (NotNull.mk 9%N) 4%N 9%N)
    as (He & _ & Hl & _); [reflexivity | reflexivity |].
  split; [exact Hl | exact He].
Defined.

(** ** NotNull: the invariant of client programs *)

Section Client_invariant.
Context {T : Type} `{!PointerLike T, !ConvertibleTo T T}.

Implicit Types (st : gmap N (NotNull.t T)) (vs : list T).

Lemma object_Ret st x w : Client.object st x = Ret w → st !! x = Some w.
Proof. unfold Client.object. by destruct (st !! x); intros [= ->]. Qed.

Lemma ctor_conv_Ret_inv (u w : NotNull.t T) :
  NotNull.ctor_conv Checked u = Ret w → is_nullptr (NotNull.ptr_ w) = false.
Proof.
  unfold NotNull.ctor_conv.
  destruct (NotNull.get Checked u) as [v| |]; simpl; try discriminate.
  intros [-> H]%ctor_fwd_Ret_inv. by apply H.
Qed.

Lemma step_valid o st vs st' :
  Client.all_valid st →
  Client.step Checked o st = Ret (vs, st') →
  Client.all_valid st' ∧ Forall (λ v, is_nullptr v = false) vs.
Proof.
  unfold Client.all_valid. intros Hst.
  destruct o as [x u|x u|x y|x y|x y|x y|x|x|x|x]; simpl.
  - destruct (NotNull.ctor Checked u) as [w| |] eqn:E; simpl; try discriminate.
    intros [= <- <-]. apply ctor_Ret_inv in E as [E1 E2].
    split; [|constructor]. apply map_Forall_insert_2; [|done].
    rewrite E1. by apply E2.
  - destruct (NotNull.ctor_fwd Checked u) as [w| |] eqn:E; simpl; try discriminate.
    intros [= <- <-]. apply ctor_fwd_Ret_inv in E as [E1 E2].
    split; [|constructor]. apply map_Forall_insert_2; [|done].
    rewrite E1. by apply E2.
  - destruct (Client.object st y) as [other| |] eqn:O; simpl; try discriminate.
    destruct (NotNull.ctor_conv Checked other) as [w| |] eqn:E; simpl; try discriminate.
    intros [= <- <-]. split; [|constructor].
    apply map_Forall_insert_2; [|done]. by eapply ctor_conv_Ret_inv.
  - destruct (Client.object st y) as [other| |] eqn:O; simpl; try discriminate.
    intros [= <- <-]. split; [|constructor].
    apply map_Forall_insert_2; [|done]. simpl.
    apply object_Ret in O. by apply (Hst _ _ O).
  - destruct (Client.object st y) as [other| |] eqn:O; simpl; try discriminate.
    destruct (NotNull.ctor_move Checked other) as [w| |] eqn:E; simpl; try discriminate.
    intros [= <- <-]. split; [|constructor].
    apply map_Forall_insert_2; [|done].
    apply ctor_move_Ret_inv in E as [-> E]. by apply E.
  - destruct (Client.object st x) as [this| |] eqn:O1; simpl; try discriminate.
    destruct (Client.object st y) as [other| |] eqn:O2; simpl; try discriminate.
    intros [= <- <-]. split; [|constructor].
    apply map_Forall_insert_2; [|done]. simpl.
    apply object_Ret in O2. by apply (Hst _ _ O2).
  - destruct (Client.object st x) as [this| |] eqn:O; simpl; try discriminate.
    destruct (NotNull.get Checked this) as [v| |] eqn:E; simpl; try discriminate.
    intros [= <- <-]. split; [done|].
    apply get_Ret_inv in E as [_ E]. constructor; [by apply E|constructor].
  - destruct (Client.object st x) as [this| |] eqn:O; simpl; try discriminate.
    destruct (NotNull.to_T Checked this) as [v| |] eqn:E; simpl; try discriminate.
    intros [= <- <-]. split; [done|].
    apply get_Ret_inv in E as [_ E]. constructor; [by apply E|constructor].
  - destruct (Client.object st x) as [this| |] eqn:O; simpl; try discriminate.
    destruct (NotNull.arrow Checked this) as [v| |] eqn:E; simpl; try discriminate.
    intros [= <- <-]. split; [done|].
    apply get_Ret_inv in E as [_ E]. constructor; [by apply E|constructor].
  - destruct (Client.object st x) as [this| |] eqn:O; simpl; try discriminate.
    intros [= <- <-]. split; [|constructor]. by apply map_Forall_delete.
Qed.

Lemma run_valid ops st vs st' :
  Client.all_valid st →
  Client.run Checked ops st = Ret (vs, st') →
  Client.all_valid st' ∧ Forall (λ v, is_nullptr v = false) vs.
Proof.
  revert st vs st'. induction ops as [|o ops IH]; intros st vs st' Hst; simpl.
  - intros [= <- <-]. by split.
  - destruct (Client.step Checked o st) as [[vs1 st1]| |] eqn:E1; simpl; try discriminate.
    destruct (Client.run Checked ops st1) as [[vs2 st2]| |] eqn:E2; simpl; try discriminate.
    intros [= <- <-].
    destruct (step_valid _ _ _ _ Hst E1) as [Hst1 Hvs1].
    destruct (IH _ _ _ Hst1 E2) as [Hst2 Hvs2].
    split; [done|]. by apply Forall_app.
Qed.

(** A run that returns has returned after each of its prefixes. *)
Lemma run_app m ops1 ops2 st vs st' :
  Client.run m (ops1 ++ ops2) st = Ret (vs, st') →
  ∃ vs1 st1 vs2,
    Client.run m ops1 st = Ret (vs1, st1)
    ∧ Client.run m ops2 st1 = Ret (vs2, st')
    ∧ vs = vs1 ++ vs2.
Proof.
  revert st vs st'. induction ops1 as [|o ops1 IH]; intros st vs st'; simpl.
  - intros H. by exists [], st, vs.
  - destruct (Client.step m o st) as [[vs0 st0]| |] eqn:E0; simpl; try discriminate.
    destruct (Client.run m (ops1 ++ ops2) st0) as [[vs' st'']| |] eqn:E; simpl;
      try discriminate.
    intros [= <- <-].
    destruct (IH _ _ _ E) as (vs1 & st1 & vs2 & H1 & H2 & ->).
    exists (vs0 ++ vs1), st1, vs2. rewrite H1. simpl.
    split; [done|]. split; [done|]. by rewrite app_assoc.
Qed.

(** C1. In a checked build, whatever sequence of constructions, copies,
    moves, conversions, assignments, reads and destructions a client runs
    from the empty store, if it runs to its end then every wrapper of the
    final store (and so of the store after each prefix of the run) holds a
    payload that is not null, every value a read handed out is not null, and
    [get()] of every wrapper returns its payload. *)
Theorem notnull_invariant (ops : list (Client.op T)) vs st :
  Client.run Checked ops ∅ = Ret (vs, st) →
  Client.all_valid st
  ∧ Forall (λ v, is_nullptr v = false) vs
  ∧ (∀ x w, st !! x = Some w → NotNull.get Checked w = Ret (NotNull.ptr_ w))
  ∧ (∀ ops1 ops2, ops = ops1 ++ ops2 →
       ∃ vs1 st1, Client.run Checked ops1 ∅ = Ret (vs1, st1) ∧ Client.all_valid st1).
Proof.
  intros Hrun.
  assert (He : Client.all_valid (∅ : gmap N (NotNull.t T))) by apply map_Forall_empty.
  destruct (run_valid _ _ _ _ He Hrun) as [Hst Hvs].
  repeat split; try done.
  - intros x w Hx. apply get_valid. by apply (Hst _ _ Hx).
  - intros ops1 ops2 ->.
    destruct (run_app _ _ _ _ _ _ Hrun) as (vs1 & st1 & vs2 & H1 & _ & _).
    exists vs1, st1. split; [done|]. by destruct (run_valid _ _ _ _ He H1).
Qed.

(** A moved-from wrapper is the wrapper it was. *)
Lemma move_keeps_source m x y st vs st' :
  x ≠ y →
  Client.step m (Client.Move x y) st = Ret (vs, st') →
  st' !! y = st !! y ∧ ∃ w, st' !! x = Some w ∧ Some w = st !! y.
Proof.
  intros Hxy. simpl.
  destruct (Client.object st y) as [other| |] eqn:O; simpl; try discriminate.
  destruct (NotNull.ctor_move m other) as [w| |] eqn:E; simpl; try discriminate.
  intros [= <- <-]. rewrite lookup_insert_ne by done. split; [done|].
  exists w. rewrite lookup_insert_eq. split; [done|].
  apply object_Ret in O. rewrite O. f_equal.
  apply ctor_move_Ret_inv in E as [E _]. destruct w, other. simpl in *. by subst.
Qed.

End Client_invariant.

Lemma notnull_invariant_witness :
  Client.run Checked client_ops ∅ = Ret ([7%N; 8%N; 8%N], client_store)
  ∧ Client.all_valid client_store
  ∧ Forall (λ v, is_nullptr v = false) [7%N; 8%N; 8%N].
Proof.
  assert (Hrun : Client.run Checked client_ops ∅
                 = Ret ([7%N; 8%N; 8%N], client_store))
    by (vm_compute; reflexivity).
  split; [exact Hrun|].
  destruct (notnull_invariant client_ops _ _ Hrun) as (H1 & H2 & _).
  split; assumption.
Defined.

(** Without the checks a null payload gets in, and out again. *)
Lemma unchecked_admits_null :
  Client.run Unchecked [Client.Construct 1 nullptr; Client.Get 1] ∅
  = Ret ([nullptr], {[ 1%N := NotNull.mk nullptr ]}).
Proof. reflexivity. Qed.

(** ** The state monad and std::shared_ptr *)

Section store_facts.
Context {V : Type}.

Implicit Types (s : state V) (o : gmap N V) (b : gmap N control_block)
  (r : gmap N sref) (sp : shared_ptr) (cb : control_block).

Lemma bind_unfold {A B} (c : M V A) (f : A → M V B) s :
  (c ≫= f) s =
  match c s with
  | Ret (a, s') => f a s'
  | Terminate => Terminate
  | Undefined => Undefined
  end.
Proof. reflexivity. Qed.

Lemma bind_Ret {A B} (c : M V A) (f : A → M V B) s a s' :
  c s = Ret (a, s') → (c ≫= f) s = f a s'.
Proof. intros H. by rewrite bind_unfold, H. Qed.

Lemma state_eta s : State (objects s) (blocks s) (srefs s) = s.
Proof. by destruct s. Qed.

Lemma one_fewer_more cb : one_fewer (one_more cb) = cb.
Proof. by destruct cb. Qed.

Lemma lift_get m (d : NotNull.t shared_ptr) s :
  is_nullptr (NotNull.ptr_ d) = false →
  lift (NotNull.get m d) s = Ret (NotNull.ptr_ d, s).
Proof. intros H. unfold lift. by rewrite get_valid. Qed.

Lemma lift_ctor m sp s :
  is_nullptr sp = false → lift (NotNull.ctor m sp) s = Ret (NotNull.mk sp, s).
Proof. intros H. unfold lift, NotNull.ctor. by rewrite H, andb_false_r. Qed.

Lemma sp_copy_shared sp c cb o b r :
  sp_ctrl sp = Some c → b !! c = Some cb →
  sp_copy sp (State o b r) = Ret (sp, State o (<[c := one_more cb]> b) r).
Proof. intros Hc Hb. unfold sp_copy. simpl. by rewrite Hc, Hb. Qed.

Lemma sp_drop_shared sp c cb o b r :
  sp_ctrl sp = Some c → b !! c = Some cb → 2 ≤ use_count cb →
  sp_drop sp (State o b r) = Ret ((), State o (<[c := one_fewer cb]> b) r).
Proof.
  intros Hc Hb Hn. unfold sp_drop. simpl. rewrite Hc, Hb.
  destruct cb as [[|[|n]] p]; simpl in *; try lia. done.
Qed.

Lemma sp_drop_last sp c cb o b r :
  sp_ctrl sp = Some c → b !! c = Some cb → use_count cb = 1 →
  managed cb ≠ nullptr → is_Some (o !! managed cb) →
  sp_drop sp (State o b r) = Ret ((), State (delete (managed cb) o) (delete c b) r).
Proof.
  intros Hc Hb Hn Hp [v Hv]. unfold sp_drop. simpl. rewrite Hc, Hb, Hn.
  apply N.eqb_neq in Hp. by rewrite Hp, Hv.
Qed.

Lemma sp_deref_valid sp s :
  is_nullptr sp = false → sp_deref sp s = Ret (sp_get sp, s).
Proof. unfold sp_deref, is_nullptr, shared_ptr_pointer_like. by intros ->. Qed.

Lemma load_live p v o b r :
  o !! p = Some v → load p (State o b r) = Ret (v, State o b r).
Proof. intros H. unfold load. simpl. by rewrite H. Qed.

Lemma store_live p v v' o b r :
  o !! p = Some v' → store p v (State o b r) = Ret ((), State (<[p := v]> o) b r).
Proof. intros H. unfold store. simpl. by rewrite H. Qed.

Lemma member_at x d o b r :
  r !! x = Some (Sref d) → Sref.member x (State o b r) = Ret (d, State o b r).
Proof. intros H. unfold Sref.member. simpl. by rewrite H. Qed.

Lemma handle_Some s x sp :
  handle s x = Some sp → srefs s !! x = Some (Sref (NotNull.mk sp)).
Proof.
  unfold handle. destruct (srefs s !! x) as [[[sp']]|]; simpl; [|done].
  by intros [= ->].
Qed.

Lemma block_Some s sp cb :
  block s sp = Some cb → ∃ c, sp_ctrl sp = Some c ∧ blocks s !! c = Some cb.
Proof.
  unfold block. destruct (sp_ctrl sp) as [c|]; simpl; [|done]. eauto.
Qed.

(** A temporary copy of a live share comes and goes without a trace. *)
Lemma copy_then_drop sp c cb b :
  b !! c = Some cb → <[c := one_fewer (one_more cb)]> (<[c := one_more cb]> b) = b.
Proof.
  intros Hb. rewrite one_fewer_more, insert_insert_eq. by apply insert_id.
Qed.

End store_facts.

(** ** sref: dereference *)

Section sref_facts.
Context {V : Type} `{!Copyable V}.

Implicit Types (s : state V) (sp : shared_ptr) (cb : control_block).

Lemma NotNull_star_valid m s sp cb :
  is_nullptr sp = false → block s sp = Some cb → 0 < use_count cb →
  NotNull_star m (NotNull.mk sp) s = Ret (sp_get sp, s).
Proof.
  intros Hn (c & Hc & Hb)%block_Some Hpos.
  destruct s as [o b r]. simpl in *. unfold NotNull_star.
  erewrite bind_Ret by (by apply lift_get).
  erewrite bind_Ret by (by eapply sp_copy_shared).
  erewrite bind_Ret by (by apply sp_deref_valid).
  erewrite bind_Ret.
  2:{ eapply sp_drop_shared; [done|apply lookup_insert_eq|simpl; lia]. }
  simpl. by rewrite copy_then_drop.
Qed.

Lemma star_valid m s x sp cb :
  handle s x = Some sp → is_nullptr sp = false →
  block s sp = Some cb → 0 < use_count cb →
  Sref.star m x s = Ret (sp_get sp, s).
Proof.
  intros Hx%handle_Some Hn Hb Hpos. unfold Sref.star.
  erewrite bind_Ret by (destruct s; by apply member_at).
  by eapply NotNull_star_valid.
Qed.

Lemma arrow_valid m s x sp cb :
  handle s x = Some sp → is_nullptr sp = false →
  block s sp = Some cb → 0 < use_count cb →
  Sref.arrow m x s = Ret (sp_get sp, s).
Proof.
  intros Hx%handle_Some Hn (c & Hc & Hb)%block_Some Hpos.
  destruct s as [o b r]. simpl in *. unfold Sref.arrow.
  erewrite bind_Ret by (by apply member_at).
  erewrite bind_Ret by (by apply lift_get).
  erewrite bind_Ret by (by eapply sp_copy_shared).
  erewrite bind_Ret.
  2:{ eapply sp_drop_shared; [done|apply lookup_insert_eq|simpl; lia]. }
  simpl. by rewrite copy_then_drop.
Qed.

Lemma read_valid m s x sp cb v :
  handle s x = Some sp → is_nullptr sp = false →
  block s sp = Some cb → 0 < use_count cb →
  objects s !! sp_get sp = Some v →
  Sref.read m x s = Ret (v, s).
Proof.
  intros Hx Hn Hb Hpos Hv. unfold Sref.read.
  erewrite bind_Ret by (by eapply star_valid).
  destruct s as [o b r]. by apply load_live.
Qed.

Lemma modify_valid m s x sp cb v f :
  handle s x = Some sp → is_nullptr sp = false →
  block s sp = Some cb → 0 < use_count cb →
  objects s !! sp_get sp = Some v →
  Sref.modify m x f s =
    Ret ((), State (<[sp_get sp := f v]> (objects s)) (blocks s) (srefs s)).
Proof.
  intros Hx Hn Hb Hpos Hv. unfold Sref.modify.
  erewrite bind_Ret by (by eapply star_valid).
  destruct s as [o b r]. simpl in *.
  erewrite bind_Ret by (by apply load_live).
  by eapply store_live.
Qed.

(** ** sref: assignment *)

Lemma assign_self m s x : Sref.assign m x x s = Ret (x, s).
Proof. unfold Sref.assign. by rewrite decide_True. Qed.

Lemma assign_valid m s x y spx spy cbx cby vx vy :
  x ≠ y →
  handle s x = Some spx → is_nullptr spx = false →
  block s spx = Some cbx → 0 < use_count cbx →
  objects s !! sp_get spx = Some vx →
  handle s y = Some spy → is_nullptr spy = false →
  block s spy = Some cby → 0 < use_count cby →
  objects s !! sp_get spy = Some vy →
  Sref.assign m x y s =
    Ret (x, State (<[sp_get spx := copy_assign vx vy]> (objects s))
               (blocks s) (srefs s)).
Proof.
  intros Hxy Hx%handle_Some Hnx Hbx Hpx Hvx Hy%handle_Some Hny Hby Hpy Hvy.
  unfold Sref.assign. rewrite decide_False by done.
  erewrite bind_Ret by (destruct s; by apply member_at).
  erewrite bind_Ret by (by eapply NotNull_star_valid).
  erewrite bind_Ret by (destruct s; by apply member_at).
  erewrite bind_Ret by (by eapply NotNull_star_valid).
  destruct s as [o b r]. simpl in *.
  erewrite bind_Ret by (by apply load_live).
  erewrite bind_Ret by (by apply load_live).
  erewrite bind_Ret by (by eapply store_live).
  reflexivity.
Qed.

End sref_facts.

(** ** sref: construction, conversion, destruction *)

Section sref_lifetime.
Context {V : Type} `{!Copyable V}.

Implicit Types (s : state V) (sp : shared_ptr) (cb : control_block)
  (o : gmap N V) (b : gmap N control_block) (r : gmap N sref).


Lemma ctor_copy_valid s x y sp c cb :
  handle s y = Some sp → sp_ctrl sp = Some c → blocks s !! c = Some cb →
  Sref.ctor_copy x y s =
    Ret ((), State (objects s) (<[c := one_more cb]> (blocks s))
               (<[x := Sref (NotNull.mk sp)]> (srefs s))).
Proof.
  intros Hy%handle_Some Hc Hb. destruct s as [o b r]. simpl in *.
  unfold Sref.ctor_copy.
  erewrite bind_Ret by (by apply member_at).
  erewrite bind_Ret by (by eapply sp_copy_shared).
  reflexivity.
Qed.

Lemma ctor_move_eq_copy x y s : Sref.ctor_move x y s = Sref.ctor_copy x y s.
Proof. reflexivity. Qed.

Lemma ctor_sptr_valid m s x sp c cb :
  is_nullptr sp = false → sp_ctrl sp = Some c → blocks s !! c = Some cb →
  Sref.ctor_sptr m x sp s =
    Ret ((), State (objects s) (<[c := one_more cb]> (blocks s))
               (<[x := Sref (NotNull.mk sp)]> (srefs s))).
Proof.
  intros Hn Hc Hb. destruct s as [o b r]. simpl in *. unfold Sref.ctor_sptr.
  erewrite bind_Ret by (by eapply sp_copy_shared).
  erewrite bind_Ret by (by apply lift_ctor).
  reflexivity.
Qed.

Lemma to_sref_valid m up s x y sp c cb :
  handle s y = Some sp → is_nullptr sp = false →
  sp_ctrl sp = Some c → blocks s !! c = Some cb →
  up (sp_get sp) ≠ nullptr →
  Sref.to_sref m up x y s =
    Ret ((), State (objects s) (<[c := one_more cb]> (blocks s))
               (<[x := Sref (NotNull.mk (sp_upcast up sp))]> (srefs s))).
Proof.
  intros Hy%handle_Some Hn Hc Hb Hup. destruct s as [o b r]. simpl in *.
  unfold Sref.to_sref.
  erewrite bind_Ret by (by apply member_at).
  erewrite bind_Ret by (by apply lift_get).
  erewrite bind_Ret by (by eapply sp_copy_shared).
  erewrite bind_Ret.
  2:{ eapply ctor_sptr_valid; simpl; [|done|apply lookup_insert_eq].
      by apply N.eqb_neq. }
  simpl.
  erewrite sp_drop_shared; [|done|apply lookup_insert_eq|simpl; lia].
  by rewrite one_fewer_more, !insert_insert_eq.
Qed.

Lemma dtor_shared s x sp c cb :
  handle s x = Some sp → sp_ctrl sp = Some c → blocks s !! c = Some cb →
  2 ≤ use_count cb →
  Sref.dtor x s =
    Ret ((), State (objects s) (<[c := one_fewer cb]> (blocks s))
               (delete x (srefs s))).
Proof.
  intros Hx%handle_Some Hc Hb Hn. destruct s as [o b r]. simpl in *.
  unfold Sref.dtor.
  erewrite bind_Ret by (by apply member_at).
  erewrite bind_Ret by (by eapply sp_drop_shared).
  reflexivity.
Qed.

Lemma dtor_last s x sp c cb :
  handle s x = Some sp → sp_ctrl sp = Some c → blocks s !! c = Some cb →
  use_count cb = 1 → managed cb ≠ nullptr → is_Some (objects s !! managed cb) →
  Sref.dtor x s =
    Ret ((), State (delete (managed cb) (objects s)) (delete c (blocks s))
               (delete x (srefs s))).
Proof.
  intros Hx%handle_Some Hc Hb Hn Hp Hlive. destruct s as [o b r]. simpl in *.
  unfold Sref.dtor.
  erewrite bind_Ret by (by apply member_at).
  erewrite bind_Ret by (by eapply sp_drop_last).
  reflexivity.
Qed.

Lemma handle_insert_eq o b r x sp :
  handle (State o b (<[x := Sref (NotNull.mk sp)]> r)) x = Some sp.
Proof. unfold handle. simpl. by rewrite lookup_insert_eq. Qed.

Lemma handle_insert_ne o b (o' : gmap N V) (b' : gmap N control_block) r x y d :
  x ≠ y →
  handle (State o' b' (<[x := d]> r)) y = handle (State o b r) y.
Proof. intros H. unfold handle. simpl. by rewrite lookup_insert_ne. Qed.

Lemma handle_delete_ne o b (o' : gmap N V) (b' : gmap N control_block) r x y :
  x ≠ y →
  handle (State o' b' (delete x r)) y = handle (State o b r) y.
Proof. intros H. unfold handle. simpl. by rewrite lookup_delete_ne. Qed.

Lemma handle_fresh s x y sp : srefs s !! x = None → handle s y = Some sp → x ≠ y.
Proof. intros Hx Hy%handle_Some ->. congruence. Qed.

End sref_lifetime.

(** ** Ownership *)

Section owners_facts.
Implicit Types (r : gmap N sref) (sp : shared_ptr).


Lemma owners_insert_fresh r x sp c :
  r !! x = None →
  owners (<[x := Sref (NotNull.mk sp)]> r) c =
    if decide (sp_ctrl sp = Some c) then S (owners r c) else owners r c.
Proof.
  intros Hx. unfold owners. rewrite map_filter_insert. simpl.
  case_decide.
  - rewrite map_size_insert_None; [done|].
    apply map_lookup_filter_None. by left.
  - by rewrite delete_id.
Qed.

Lemma owners_delete r x sp c :
  r !! x = Some (Sref (NotNull.mk sp)) →
  owners r c =
    if decide (sp_ctrl sp = Some c) then S (owners (delete x r) c)
    else owners (delete x r) c.
Proof.
  intros Hx. unfold owners. rewrite map_filter_delete.
  case_decide.
  - rewrite map_size_delete_Some; [|].
    + assert (size (filter (λ xr : N * sref,
                 sp_ctrl (NotNull.ptr_ (data_ xr.2)) = Some c) r) ≠ 0); [|lia].
      intros E%map_size_empty_inv.
      assert (filter (λ xr : N * sref,
                 sp_ctrl (NotNull.ptr_ (data_ xr.2)) = Some c) r !! x
              = Some (Sref (NotNull.mk sp))) as Hf
        by (by apply map_lookup_filter_Some).
      by rewrite E in Hf.
    + exists (Sref (NotNull.mk sp)). by apply map_lookup_filter_Some.
  - rewrite map_size_delete_None; [done|].
    apply map_lookup_filter_None. right. intros r' Hr'. simpl.
    assert (r' = Sref (NotNull.mk sp)) as -> by congruence. done.
Qed.

Lemma owners_pos r x sp c :
  r !! x = Some (Sref (NotNull.mk sp)) → sp_ctrl sp = Some c → 0 < owners r c.
Proof.
  intros Hx Hc. rewrite (owners_delete r x sp c Hx).
  rewrite decide_True by done. lia.
Qed.

End owners_facts.

Section owned_facts.
Context {V : Type}.

Implicit Types (s : state V) (o : gmap N V) (b : gmap N control_block)
  (r : gmap N sref) (sp : shared_ptr) (cb : control_block).

Lemma owned_empty : owned (empty_state (V:=V)).
Proof.
  split.
  - intros x sp. unfold handle. simpl. by rewrite lookup_empty.
  - intros c cb. simpl. by rewrite lookup_empty.
  - intros c c' cb cb'. simpl. by rewrite lookup_empty.
Qed.

Lemma block_insert_is_Some o b r o' r' c cb' sp :
  is_Some (b !! c) →
  is_Some (block (State o b r) sp) →
  is_Some (block (State o' (<[c := cb']> b) r') sp).
Proof.
  unfold block. simpl. destruct (sp_ctrl sp) as [c'|]; simpl; [|done].
  intros Hc Hc'. rewrite lookup_insert. by case_decide.
Qed.

(** A control block is replaced by one that manages the same object. *)
Lemma owned_update o b r r' c cb cb' :
  owned (State o b r) →
  b !! c = Some cb → managed cb' = managed cb → 0 < use_count cb' →
  owners r' c ≤ use_count cb' →
  (∀ c', c' ≠ c → owners r' c' ≤ owners r c') →
  (∀ x sp, r' !! x = Some (Sref (NotNull.mk sp)) →
     is_nullptr sp = false ∧ is_Some (block (State o b r) sp)) →
  owned (State o (<[c := cb']> b) r').
Proof.
  intros [H1 H2 H3] Hb Hm Hpos Hown Hothers Hnew. simpl in *. split; simpl.
  - intros x sp Hx%handle_Some. simpl in Hx.
    destruct (Hnew _ _ Hx) as [Hn Hblk]. split; [done|].
    by eapply block_insert_is_Some.
  - intros c' cb'' Hc'. rewrite lookup_insert in Hc'. case_decide as Hd.
    + subst c'. injection Hc' as <-. destruct (H2 _ _ Hb) as (_ & _ & Hp & Hl).
      rewrite Hm. done.
    + destruct (H2 _ _ Hc') as (Ho & ? & ? & ?).
      split; [|done]. specialize (Hothers c'). lia.
  - intros c1 c2 cb1 cb2 Hc1 Hc2 Heq.
    rewrite lookup_insert in Hc1. rewrite lookup_insert in Hc2.
    repeat case_decide; simplify_eq; try done.
    + rewrite Hm in Heq. by eapply H3.
    + rewrite Hm in Heq. by eapply H3.
    + by eapply H3.
Qed.

(** One more [sref] shares an existing control block. *)
Lemma owned_share o b r x sp c cb :
  owned (State o b r) →
  r !! x = None → is_nullptr sp = false →
  sp_ctrl sp = Some c → b !! c = Some cb →
  owned (State o (<[c := one_more cb]> b) (<[x := Sref (NotNull.mk sp)]> r)).
Proof.
  intros Ho Hx Hn Hc Hb. pose proof Ho as [H1 H2 H3]. simpl in *.
  eapply owned_update; try done; simpl.
  - destruct (H2 _ _ Hb). lia.
  - rewrite owners_insert_fresh, decide_True by done.
    destruct (H2 _ _ Hb). lia.
  - intros c' Hc'. rewrite owners_insert_fresh by done.
    rewrite decide_False; [done|]. congruence.
  - intros y sp' Hy. rewrite lookup_insert in Hy. case_decide.
    + simplify_eq. split; [done|]. unfold block. simpl. rewrite Hc. simpl.
      by rewrite Hb.
    + apply (H1 y). unfold handle. simpl. by rewrite Hy.
Qed.

(** A share held outside every [sref] is added. *)
Lemma owned_lend o b r c cb :
  owned (State o b r) → b !! c = Some cb →
  owned (State o (<[c := one_more cb]> b) r).
Proof.
  intros Ho Hb. pose proof Ho as [H1 H2 H3]. simpl in *.
  eapply owned_update; try done; simpl.
  - lia.
  - destruct (H2 _ _ Hb). lia.
  - intros y sp' Hy. apply (H1 y). unfold handle. simpl. by rewrite Hy.
Qed.

(** An [sref] that is not the last owner goes. *)
Lemma owned_leave o b r x sp c cb :
  owned (State o b r) →
  r !! x = Some (Sref (NotNull.mk sp)) →
  sp_ctrl sp = Some c → b !! c = Some cb → 2 ≤ use_count cb →
  owned (State o (<[c := one_fewer cb]> b) (delete x r)).
Proof.
  intros Ho Hx Hc Hb Hn. pose proof Ho as [H1 H2 H3]. simpl in *.
  eapply owned_update; try done; simpl.
  - lia.
  - destruct (H2 _ _ Hb) as [Hle _].
    rewrite (owners_delete r x sp c Hx), decide_True in Hle by done. lia.
  - intros c' Hc'. rewrite (owners_delete r x sp c' Hx).
    rewrite decide_False; [done|]. congruence.
  - intros y sp' Hy. apply lookup_delete_Some in Hy as [_ Hy].
    apply (H1 y). unfold handle. simpl. by rewrite Hy.
Qed.

(** The last owner goes, and with it the control block and the object. *)
Lemma owned_last o b r x sp c cb :
  owned (State o b r) →
  r !! x = Some (Sref (NotNull.mk sp)) →
  sp_ctrl sp = Some c → b !! c = Some cb → use_count cb = 1 →
  owned (State (delete (managed cb) o) (delete c b) (delete x r)).
Proof.
  intros [H1 H2 H3] Hx Hc Hb Hn. simpl in *. split; simpl.
  - intros y sp' Hy%handle_Some. simpl in Hy.
    apply lookup_delete_Some in Hy as [Hxy Hy].
    destruct (H1 y sp') as [Hnn [cb' Hblk]].
    { unfold handle. simpl. by rewrite Hy. }
    split; [done|].
    apply block_Some in Hblk as (c' & Hc' & Hb'). simpl in Hb'.
    unfold block. simpl. rewrite Hc'. simpl.
    rewrite lookup_delete_ne; [by eexists|].
    intros <-. destruct (H2 _ _ Hb) as [Hle _].
    rewrite (owners_delete r x sp c Hx), decide_True in Hle by done.
    assert (0 < owners (delete x r) c); [|lia].
    eapply owners_pos; [|done]. by rewrite lookup_delete_ne.
  - intros c' cb' Hc'. apply lookup_delete_Some in Hc' as [Hne Hc'].
    destruct (H2 _ _ Hc') as (Ho & ? & ? & Hl).
    repeat split; try done.
    + rewrite (owners_delete r x sp c' Hx) in Ho.
      rewrite decide_False in Ho; [done|]. congruence.
    + rewrite lookup_delete_ne; [done|].
      intros Heq. apply Hne. by eapply H3.
  - intros c1 c2 cb1 cb2 [_ Hc1]%lookup_delete_Some [_ Hc2]%lookup_delete_Some.
    by eapply H3.
Qed.

(** An object is overwritten. *)
Lemma owned_store o b r p v :
  owned (State o b r) → is_Some (o !! p) →
  owned (State (<[p := v]> o) b r).
Proof.
  intros [H1 H2 H3] Hp. simpl in *. split; simpl; [done| |done].
  intros c cb Hc. destruct (H2 _ _ Hc) as (? & ? & ? & Hl).
  repeat split; try done. rewrite lookup_insert. by case_decide.
Qed.

(** A new object, owned by a new control block, held by a new [sref]. *)
Lemma owned_new o b r x p c v :
  owned (State o b r) →
  r !! x = None → o !! p = None → b !! c = None → p ≠ nullptr →
  owned (State (<[p := v]> o) (<[c := ControlBlock 1 p]> b)
           (<[x := Sref (NotNull.mk (SharedPtr p (Some c)))]> r)).
Proof.
  intros [H1 H2 H3] Hx Hp Hc Hnn. simpl in *. split; simpl.
  - intros y sp Hy%handle_Some. simpl in Hy. rewrite lookup_insert in Hy.
    case_decide.
    + simplify_eq. split; [by apply N.eqb_neq|].
      unfold block. simpl. rewrite lookup_insert_eq. by eexists.
    + destruct (H1 y sp) as [Hn [cb Hblk]].
      { unfold handle. simpl. by rewrite Hy. }
      split; [done|].
      apply block_Some in Hblk as (c' & Hc' & Hb'). simpl in Hb'.
      unfold block. simpl. rewrite Hc'. simpl.
      rewrite lookup_insert_ne; [by eexists|]. congruence.
  - intros c' cb' Hc'. rewrite lookup_insert in Hc'. case_decide.
    + simplify_eq. simpl. rewrite owners_insert_fresh by done.
      rewrite decide_True by done. rewrite lookup_insert_eq.
      repeat split; try done; try lia.
      assert (owners r c' = 0); [|lia].
      destruct (owners r c') eqn:E; [done|].
      unfold owners in E.
      destruct (map_choose (filter (λ xr : N * sref,
                  sp_ctrl (NotNull.ptr_ (data_ xr.2)) = Some c') r))
        as (y & [[sp]] & [Hy Hsp]%map_lookup_filter_Some).
      { intros Hemp. rewrite Hemp, map_size_empty in E. done. }
      simpl in Hsp. destruct (H1 y sp) as [_ [cb Hblk]].
      { unfold handle. simpl. by rewrite Hy. }
      unfold block in Hblk. simpl in Hblk. rewrite Hsp in Hblk. simpl in Hblk.
      congruence.
    + destruct (H2 _ _ Hc') as (Ho & ? & ? & [v' Hl]).
      rewrite owners_insert_fresh by done.
      rewrite decide_False by (simpl; congruence).
      repeat split; try done.
      rewrite lookup_insert_ne; [by eexists|]. congruence.
  - intros c1 c2 cb1 cb2 Hc1 Hc2 Heq.
    destruct (decide (c1 = c)) as [->|N1], (decide (c2 = c)) as [->|N2];
      [done| | |].
    + rewrite lookup_insert_eq in Hc1. rewrite lookup_insert_ne in Hc2 by done.
      injection Hc1 as <-. simpl in Heq.
      destruct (H2 _ _ Hc2) as (_ & _ & _ & [v' Hl]).
      rewrite <-Heq in Hl. congruence.
    + rewrite lookup_insert_ne in Hc1 by done. rewrite lookup_insert_eq in Hc2.
      injection Hc2 as <-. simpl in Heq.
      destruct (H2 _ _ Hc1) as (_ & _ & _ & [v' Hl]).
      rewrite Heq in Hl. congruence.
    + rewrite lookup_insert_ne in Hc1 by done.
      rewrite lookup_insert_ne in Hc2 by done. by eapply H3.
Qed.

End owned_facts.

(** ** sref: the invariant of client programs *)

Section SrefClient_invariant.
Context {V : Type} `{!Copyable V}.

Implicit Types (s : state V) (o : gmap N V) (b : gmap N control_block)
  (r : gmap N sref) (sp : shared_ptr) (cb : control_block).

Lemma fresh_object o : fresh ({[nullptr]} ∪ dom o) ≠ nullptr
  ∧ o !! fresh ({[nullptr]} ∪ dom o) = None.
Proof.
  pose proof (is_fresh ({[nullptr]} ∪ dom o)) as H.
  split; [set_solver|]. apply not_elem_of_dom. set_solver.
Qed.

Lemma fresh_block b : b !! fresh (dom b) = None.
Proof. apply not_elem_of_dom, is_fresh. Qed.

Lemma ctor_raw_valid m s x p :
  p ≠ nullptr →
  Sref.ctor_raw m x p s =
    Ret ((), State (objects s)
               (<[fresh (dom (blocks s)) := ControlBlock 1 p]> (blocks s))
               (<[x := Sref (NotNull.mk (SharedPtr p (Some (fresh (dom (blocks s))))))]>
                  (srefs s))).
Proof.
  intros Hp. unfold Sref.ctor_raw.
  erewrite bind_Ret by reflexivity.
  erewrite bind_Ret by (apply lift_ctor; by apply N.eqb_neq).
  reflexivity.
Qed.

Lemma ctor_raw_null x s : Sref.ctor_raw Checked x nullptr s = Terminate.
Proof. reflexivity. Qed.

Lemma ctor_value_valid m s x v :
  Sref.ctor_value m x v s =
    Ret ((), State (<[fresh ({[nullptr]} ∪ dom (objects s)) := copy_construct v]> (objects s))
               (<[fresh (dom (blocks s)) :=
                    ControlBlock 1 (fresh ({[nullptr]} ∪ dom (objects s)))]> (blocks s))
               (<[x := Sref (NotNull.mk
                         (SharedPtr (fresh ({[nullptr]} ∪ dom (objects s)))
                            (Some (fresh (dom (blocks s))))))]> (srefs s))).
Proof.
  unfold Sref.ctor_value.
  erewrite bind_Ret by reflexivity.
  erewrite bind_Ret by reflexivity.
  erewrite bind_Ret.
  2:{ apply lift_ctor. apply N.eqb_neq. apply fresh_object. }
  reflexivity.
Qed.

Lemma sptr_valid m s x sp c cb :
  handle s x = Some sp → is_nullptr sp = false →
  sp_ctrl sp = Some c → blocks s !! c = Some cb →
  Sref.sptr m x s =
    Ret (sp, State (objects s) (<[c := one_more cb]> (blocks s)) (srefs s)).
Proof.
  intros Hx%handle_Some Hn Hc Hb. destruct s as [o b r]. simpl in *.
  unfold Sref.sptr.
  erewrite bind_Ret by (by apply member_at).
  erewrite bind_Ret by (by apply lift_get).
  by eapply sp_copy_shared.
Qed.

Lemma member_None x s : srefs s !! x = None → Sref.member x s = Undefined.
Proof. intros H. unfold Sref.member. by rewrite H. Qed.

Lemma bind_Undefined {A B} (c : M V A) (f : A → M V B) s :
  c s = Undefined → (c ≫= f) s = Undefined.
Proof. intros H. by rewrite bind_unfold, H. Qed.

Lemma storage_free x s : srefs s !! x = None → SrefClient.storage x s = Ret ((), s).
Proof. intros H. unfold SrefClient.storage. by rewrite H. Qed.

Lemma storage_used x s : is_Some (srefs s !! x) → SrefClient.storage x s = Undefined.
Proof. intros [r H]. unfold SrefClient.storage. by rewrite H. Qed.



(** What [owned] says about one reference. *)
Lemma owned_at s x sp :
  owned s → handle s x = Some sp →
  is_nullptr sp = false
  ∧ ∃ c cb, sp_ctrl sp = Some c ∧ blocks s !! c = Some cb
            ∧ block s sp = Some cb ∧ 0 < use_count cb
            ∧ managed cb ≠ nullptr ∧ is_Some (objects s !! managed cb).
Proof.
  intros [H1 H2 _] Hx. destruct (H1 _ _ Hx) as [Hn [cb Hb]].
  split; [done|]. destruct (block_Some _ _ _ Hb) as (c & Hc & Hbc).
  destruct (H2 _ _ Hbc) as (_ & ? & ? & ?). by exists c, cb.
Qed.

End SrefClient_invariant.

Section SrefClient_steps.
Context {V : Type} `{!Copyable V}.

Implicit Types (s : state V) (sp : shared_ptr) (cb : control_block).

Lemma srefs_lookup_cases s x :
  srefs s !! x = None ∨ ∃ sp, srefs s !! x = Some (Sref (NotNull.mk sp))
                              ∧ handle s x = Some sp.
Proof.
  unfold handle. destruct (srefs s !! x) as [[[sp]]|]; [right|by left].
  by exists sp.
Qed.

(** One operation, from a state in good order: it returns in a state in good
    order, or the program was at fault (it used an object that does not
    exist, built one over another, or reached a pointee that is gone). *)
Lemma step_owned (m : mode) (up : N → N) (o : SrefClient.op V) s :
  (∀ p, p ≠ nullptr → up p ≠ nullptr) →
  owned s →
  SrefClient.step m up o s = Undefined
  ∨ ∃ vs s', SrefClient.step m up o s = Ret (vs, s') ∧ owned s'.
Proof.
  intros Hup Hs.
  destruct o as [x v|x v|x y|x y|x y|x y|x|x f|x|x|x]; unfold SrefClient.step.
  - (* New *)
    destruct (srefs s !! x) eqn:Hx.
    { left. by rewrite bind_Undefined by (by apply storage_used). }
    right. erewrite bind_Ret by (by apply storage_free).
    erewrite bind_Ret by apply ctor_value_valid.
    eexists _, _. split; [reflexivity|].
    destruct s as [ob bl r]. simpl in *.
    apply owned_new; try done; try apply fresh_object. apply fresh_block.
  - (* Raw *)
    destruct (srefs s !! x) eqn:Hx.
    { left. by rewrite bind_Undefined by (by apply storage_used). }
    right. erewrite bind_Ret by (by apply storage_free).
    erewrite bind_Ret by reflexivity.
    erewrite bind_Ret by (apply ctor_raw_valid; apply fresh_object).
    eexists _, _. split; [reflexivity|].
    destruct s as [ob bl r]. simpl in *.
    apply owned_new; try done; try apply fresh_object. apply fresh_block.
  - (* Copy *)
    destruct (srefs s !! x) eqn:Hx.
    { left. by rewrite bind_Undefined by (by apply storage_used). }
    erewrite bind_Ret by (by apply storage_free).
    destruct (srefs_lookup_cases s y) as [Hy|(sp & Hy & Hh)].
    { left. apply bind_Undefined. unfold Sref.ctor_copy.
      apply bind_Undefined. by apply member_None. }
    destruct (owned_at _ _ _ Hs Hh) as (Hn & c & cb & Hc & Hb & _).
    right. erewrite bind_Ret by (by eapply ctor_copy_valid).
    eexists _, _. split; [reflexivity|].
    destruct s as [ob bl r]. simpl in *. by apply owned_share.
  - (* Move *)
    destruct (srefs s !! x) eqn:Hx.
    { left. by rewrite bind_Undefined by (by apply storage_used). }
    erewrite bind_Ret by (by apply storage_free).
    destruct (srefs_lookup_cases s y) as [Hy|(sp & Hy & Hh)].
    { left. apply bind_Undefined. unfold Sref.ctor_move.
      apply bind_Undefined. by apply member_None. }
    destruct (owned_at _ _ _ Hs Hh) as (Hn & c & cb & Hc & Hb & _).
    right. rewrite bind_unfold. rewrite ctor_move_eq_copy.
    erewrite ctor_copy_valid by done.
    eexists _, _. split; [reflexivity|].
    destruct s as [ob bl r]. simpl in *. by apply owned_share.
  - (* Upcast *)
    destruct (srefs s !! x) eqn:Hx.
    { left. by rewrite bind_Undefined by (by apply storage_used). }
    erewrite bind_Ret by (by apply storage_free).
    destruct (srefs_lookup_cases s y) as [Hy|(sp & Hy & Hh)].
    { left. apply bind_Undefined. unfold Sref.to_sref.
      apply bind_Undefined. by apply member_None. }
    destruct (owned_at _ _ _ Hs Hh) as (Hn & c & cb & Hc & Hb & _).
    assert (Hp : up (sp_get sp) ≠ nullptr) by (by apply Hup, N.eqb_neq).
    right. erewrite bind_Ret by (by eapply to_sref_valid).
    eexists _, _. split; [reflexivity|].
    destruct s as [ob bl r]. simpl in *.
    apply owned_share; try done. by apply N.eqb_neq.
  - (* Assign *)
    destruct (decide (x = y)) as [->|Hxy].
    { right. rewrite bind_unfold, assign_self. by eexists _, _. }
    destruct (srefs_lookup_cases s x) as [Hx|(spx & Hx & Hhx)].
    { left. apply bind_Undefined. unfold Sref.assign.
      rewrite decide_False by done. apply bind_Undefined. by apply member_None. }
    destruct (owned_at _ _ _ Hs Hhx) as (Hnx & cx & cbx & _ & _ & Hbx & Hpx & _).
    destruct (srefs_lookup_cases s y) as [Hy|(spy & Hy & Hhy)].
    { left. apply bind_Undefined. unfold Sref.assign.
      rewrite decide_False by done.
      erewrite bind_Ret by (destruct s; by apply member_at).
      erewrite bind_Ret by (by eapply NotNull_star_valid).
      apply bind_Undefined. by apply member_None. }
    destruct (owned_at _ _ _ Hs Hhy) as (Hny & cy & cby & _ & _ & Hby & Hpy & _).
    destruct (objects s !! sp_get spy) as [vy|] eqn:Hvy.
    2:{ left. apply bind_Undefined. unfold Sref.assign.
        rewrite decide_False by done.
        erewrite bind_Ret by (destruct s; by apply member_at).
        erewrite bind_Ret by (by eapply NotNull_star_valid).
        erewrite bind_Ret by (destruct s; by apply member_at).
        erewrite bind_Ret by (by eapply NotNull_star_valid).
        apply bind_Undefined. unfold load. by rewrite Hvy. }
    destruct (objects s !! sp_get spx) as [vx|] eqn:Hvx.
    2:{ left. apply bind_Undefined. unfold Sref.assign.
        rewrite decide_False by done.
        erewrite bind_Ret by (destruct s; by apply member_at).
        erewrite bind_Ret by (by eapply NotNull_star_valid).
        erewrite bind_Ret by (destruct s; by apply member_at).
        erewrite bind_Ret by (by eapply NotNull_star_valid).
        erewrite bind_Ret by (destruct s; by apply load_live).
        apply bind_Undefined. unfold load. by rewrite Hvx. }
    right. erewrite bind_Ret by (by eapply assign_valid).
    eexists _, _. split; [reflexivity|].
    destruct s as [ob bl r]. simpl in *. by apply owned_store.
  - (* Read *)
    destruct (srefs_lookup_cases s x) as [Hx|(sp & Hx & Hh)].
    { left. apply bind_Undefined. unfold Sref.read, Sref.star.
      do 2 apply bind_Undefined. by apply member_None. }
    destruct (owned_at _ _ _ Hs Hh) as (Hn & c & cb & _ & _ & Hb & Hpos & _).
    destruct (objects s !! sp_get sp) as [v|] eqn:Hv.
    2:{ left. apply bind_Undefined. unfold Sref.read.
        erewrite bind_Ret by (by eapply star_valid).
        unfold load. by rewrite Hv. }
    right. erewrite bind_Ret by (by eapply read_valid).
    by eexists _, _.
  - (* Modify *)
    destruct (srefs_lookup_cases s x) as [Hx|(sp & Hx & Hh)].
    { left. apply bind_Undefined. unfold Sref.modify, Sref.star.
      do 2 apply bind_Undefined. by apply member_None. }
    destruct (owned_at _ _ _ Hs Hh) as (Hn & c & cb & _ & _ & Hb & Hpos & _).
    destruct (objects s !! sp_get sp) as [v|] eqn:Hv.
    2:{ left. apply bind_Undefined. unfold Sref.modify.
        erewrite bind_Ret by (by eapply star_valid).
        apply bind_Undefined. unfold load. by rewrite Hv. }
    right. erewrite bind_Ret by (by eapply modify_valid).
    eexists _, _. split; [reflexivity|].
    destruct s as [ob bl r]. simpl in *. by apply owned_store.
  - (* Arrow *)
    destruct (srefs_lookup_cases s x) as [Hx|(sp & Hx & Hh)].
    { left. apply bind_Undefined. unfold Sref.arrow.
      apply bind_Undefined. by apply member_None. }
    destruct (owned_at _ _ _ Hs Hh) as (Hn & c & cb & _ & _ & Hb & Hpos & _).
    right. erewrite bind_Ret by (by eapply arrow_valid).
    by eexists _, _.
  - (* Sptr *)
    destruct (srefs_lookup_cases s x) as [Hx|(sp & Hx & Hh)].
    { left. apply bind_Undefined. unfold Sref.sptr.
      apply bind_Undefined. by apply member_None. }
    destruct (owned_at _ _ _ Hs Hh) as (Hn & c & cb & Hc & Hb & _).
    right. erewrite bind_Ret by (by eapply sptr_valid).
    eexists _, _. split; [reflexivity|].
    destruct s as [ob bl r]. simpl in *. by apply owned_lend.
  - (* Destroy *)
    destruct (srefs_lookup_cases s x) as [Hx|(sp & Hx & Hh)].
    { left. apply bind_Undefined. unfold Sref.dtor.
      apply bind_Undefined. by apply member_None. }
    destruct (owned_at _ _ _ Hs Hh)
      as (Hn & c & cb & Hc & Hb & _ & Hpos & Hm & Hl).
    right. destruct (decide (use_count cb = 1)) as [H1|H1].
    + erewrite bind_Ret by (by eapply dtor_last).
      eexists _, _. split; [reflexivity|].
      destruct s as [ob bl r]. simpl in *. by eapply owned_last.
    + erewrite bind_Ret by (eapply dtor_shared; eauto; lia).
      eexists _, _. split; [reflexivity|].
      destruct s as [ob bl r]. simpl in *. eapply owned_leave; eauto. lia.
Qed.

End SrefClient_steps.

Section SrefClient_runs.
Context {V : Type} `{!Copyable V}.

Implicit Types (s : state V) (sp : shared_ptr) (cb : control_block).

Lemma run_owned (m : mode) (up : N → N) (ops : list (SrefClient.op V)) s :
  (∀ p, p ≠ nullptr → up p ≠ nullptr) →
  owned s →
  SrefClient.run m up ops s = Undefined
  ∨ ∃ vs s', SrefClient.run m up ops s = Ret (vs, s') ∧ owned s'.
Proof.
  intros Hup. revert s. induction ops as [|o ops IH]; intros s Hs; simpl.
  - right. by exists [], s.
  - destruct (step_owned m up o s Hup Hs) as [E|(vs & s1 & E & Hs1)].
    { left. by apply bind_Undefined. }
    erewrite bind_Ret by done.
    destruct (IH s1 Hs1) as [E'|(ws & s2 & E' & Hs2)].
    { left. by apply bind_Undefined. }
    right. erewrite bind_Ret by done. by exists (vs ++ ws), s2.
Qed.

(** In a state in good order every reference leads to a live object. *)
Lemma owned_alive s x sp :
  owned s → handle s x = Some sp →
  ∃ cb v, block s sp = Some cb ∧ objects s !! managed cb = Some v.
Proof.
  intros Hs Hx.
  destruct (owned_at _ _ _ Hs Hx) as (_ & c & cb & _ & _ & Hb & _ & _ & [v Hv]).
  by exists cb, v.
Qed.

(** The invariant of [sref] programs: from the empty state a program never
    reaches [std::terminate()], and when it returns the state is in good
    order. *)
Theorem sref_invariant (m : mode) (up : N → N) (ops : list (SrefClient.op V)) :
  (∀ p, p ≠ nullptr → up p ≠ nullptr) →
  SrefClient.run m up ops empty_state ≠ Terminate
  ∧ ∀ vs s, SrefClient.run m up ops empty_state = Ret (vs, s) →
      owned s
      ∧ ∀ x sp, handle s x = Some sp →
          is_nullptr sp = false
          ∧ ∃ cb v, block s sp = Some cb ∧ 0 < use_count cb
                    ∧ objects s !! managed cb = Some v.
Proof.
  intros Hup.
  destruct (run_owned m up ops empty_state Hup owned_empty)
    as [E|(vs & s & E & Hs)]; rewrite E; split; try done.
  intros vs' s' [= <- <-]. split; [done|].
  intros x sp Hx.
  destruct (owned_at _ _ _ Hs Hx) as (Hn & c & cb & _ & _ & Hb & Hp & _ & [v Hv]).
  split; [done|]. by exists cb, v.
Qed.

(** Destroying one reference leaves every other one with its share, its
    object and the object's value. *)
Lemma dtor_keeps_others s x sp :
  owned s → handle s x = Some sp →
  ∃ s', Sref.dtor x s = Ret ((), s')
        ∧ owned s'
        ∧ handle s' x = None
        ∧ ∀ y spy cby, y ≠ x → handle s y = Some spy → block s spy = Some cby →
            handle s' y = Some spy
            ∧ objects s' !! managed cby = objects s !! managed cby
            ∧ ∃ cby', block s' spy = Some cby' ∧ managed cby' = managed cby.
Proof.
  intros Hs Hx.
  destruct (owned_at _ _ _ Hs Hx) as (Hn & c & cb & Hc & Hb & _ & Hpos & Hm & Hl).
  pose proof (handle_Some _ _ _ Hx) as Hx'.
  destruct (decide (use_count cb = 1)) as [H1|H1].
  - eexists. split; [by eapply dtor_last|].
    destruct s as [ob bl r]. simpl in *.
    split; [by eapply owned_last|].
    split; [unfold handle; simpl; by rewrite lookup_delete_eq|].
    intros y spy cby Hy Hhy Hby.
    assert (Hhy' : handle (State (delete (managed cb) ob) (delete c bl)
                             (delete x r)) y = Some spy).
    { by rewrite (handle_delete_ne ob bl) by done. }
    split; [done|].
    destruct (block_Some _ _ _ Hby) as (cy & Hcy & Hbcy). simpl in Hbcy.
    assert (Hne : cy ≠ c).
    { intros ->. destruct Hs as [_ H2 _]. destruct (H2 _ _ Hb) as [Hle _].
      simpl in Hle.
      rewrite (owners_delete r x sp c Hx'), decide_True in Hle by done.
      assert (0 < owners (delete x r) c); [|lia].
      eapply owners_pos; [|exact Hcy].
      rewrite lookup_delete_ne by done. by apply handle_Some in Hhy. }
    split.
    + simpl. rewrite lookup_delete_ne; [done|].
      intros Heq. apply Hne. destruct Hs as [_ _ H3]. symmetry.
      by eapply H3.
    + exists cby. split; [|done]. unfold block. simpl. rewrite Hcy. simpl.
      by rewrite lookup_delete_ne.
  - eexists. split; [eapply dtor_shared; eauto; lia|].
    destruct s as [ob bl r]. simpl in *.
    split; [eapply owned_leave; eauto; lia|].
    split; [unfold handle; simpl; by rewrite lookup_delete_eq|].
    intros y spy cby Hy Hhy Hby.
    split; [by rewrite (handle_delete_ne ob bl) by done|].
    split; [done|].
    destruct (block_Some _ _ _ Hby) as (cy & Hcy & Hbcy). simpl in Hbcy.
    unfold block. simpl. rewrite Hcy. simpl. rewrite lookup_insert.
    case_decide as Hd.
    + subst cy. exists (one_fewer cb). split; [done|]. simpl. congruence.
    + by exists cby.
Qed.

(** Destroying references one after the other, in any order, leaves a
    reference that is not among them with its share, its object and the
    object's value. *)
Lemma destroy_any_order (m : mode) (up : N → N) (xs : list N) s y sp cb :
  owned s → NoDup xs → y ∉ xs →
  (∀ x, x ∈ xs → is_Some (handle s x)) →
  handle s y = Some sp → block s sp = Some cb →
  ∃ s', SrefClient.run m up (SrefClient.Destroy <$> xs) s = Ret ([], s')
        ∧ owned s'
        ∧ handle s' y = Some sp
        ∧ objects s' !! managed cb = objects s !! managed cb
        ∧ ∃ cb', block s' sp = Some cb' ∧ managed cb' = managed cb
                 ∧ 0 < use_count cb'.
Proof.
  revert s cb. induction xs as [|x xs IH]; intros s cb Hs Hnd Hy Hxs Hhy Hb.
  - exists s. simpl. do 4 (split; [done|]). exists cb.
    destruct (owned_at _ _ _ Hs Hhy) as (_ & c & cb0 & _ & _ & Hb0 & Hp & _).
    assert (cb0 = cb) as -> by congruence. done.
  - apply NoDup_cons in Hnd as [Hx Hnd].
    apply not_elem_of_cons in Hy as [Hyx Hy].
    destruct (Hxs x) as [spx Hhx]; [by left|].
    destruct (dtor_keeps_others s x spx Hs Hhx) as (s1 & E & Hs1 & _ & Hkeep).
    destruct (Hkeep y sp cb Hyx Hhy Hb) as (Hhy1 & Ho1 & cb1 & Hb1 & Hm1).
    destruct (IH s1 cb1 Hs1 Hnd Hy) as (s2 & E2 & Hs2 & Hhy2 & Ho2 & cb2 & Hb2 & Hm2 & Hp2);
      [|done|done|].
    { intros x' Hx'. destruct (Hxs x') as [spx' Hhx']; [by right|].
      destruct (owned_at _ _ _ Hs Hhx') as (_ & c' & cb' & _ & _ & Hb' & _).
      assert (x' ≠ x) by (intros ->; done).
      destruct (Hkeep x' spx' cb') as [H' _]; [done|done|done|]. by eexists. }
    exists s2. simpl.
    erewrite bind_Ret.
    2:{ unfold SrefClient.step. erewrite bind_Ret by done. reflexivity. }
    erewrite bind_Ret by done.
    split; [done|]. split; [done|]. split; [done|].
    split; [by rewrite <-Ho1, <-Hm1|].
    exists cb2. split; [done|]. split; [congruence|done].
Qed.

End SrefClient_runs.

(** ** sref: well-behaved clients *)

Section SrefClient_progress.
Context {V : Type} `{!Copyable V}.

Implicit Types (s : state V) (sp : shared_ptr) (cb : control_block).

Lemma plain_empty : plain (empty_state (V:=V)).
Proof. intros x sp cb. unfold handle. simpl. by rewrite lookup_empty. Qed.

(** In a plain state in good order every reference has a live pointee. *)
Lemma plain_pointee s x sp :
  owned s → plain s → handle s x = Some sp → is_Some (pointee s x).
Proof.
  intros Hs Hpl Hx. unfold pointee. rewrite Hx. simpl.
  destruct (owned_at _ _ _ Hs Hx) as (_ & c & cb & _ & _ & Hb & _ & _ & Hl).
  by rewrite (Hpl _ _ _ Hx Hb).
Qed.

Implicit Types (o : gmap N V) (b : gmap N control_block) (r : gmap N sref).

Lemma plain_step o b r o' b' r' :
  owned (State o b r) → plain (State o b r) →
  (∀ x sp, r' !! x = Some (Sref (NotNull.mk sp)) →
     r !! x = Some (Sref (NotNull.mk sp))
     ∨ ∀ cb', block (State o' b' r') sp = Some cb' → sp_get sp = managed cb') →
  (∀ c cb cb', b !! c = Some cb → b' !! c = Some cb' → managed cb' = managed cb) →
  plain (State o' b' r').
Proof.
  intros Hs Hpl Hr Hb x sp cb' Hx%handle_Some Hblk. simpl in Hx.
  destruct (Hr _ _ Hx) as [Hold|Hnew]; [|by apply Hnew].
  assert (Hh : handle (State o b r) x = Some sp).
  { unfold handle. simpl. by rewrite Hold. }
  destruct (owned_at _ _ _ Hs Hh) as (_ & c & cb & Hc & Hbc & Hblk0 & _).
  rewrite (Hpl _ _ _ Hh Hblk0). symmetry. eapply Hb; [exact Hbc|].
  unfold block in Hblk. rewrite Hc in Hblk. exact Hblk.
Qed.

Lemma allowed_fresh s x : bool_decide (srefs s !! x = None) = true → srefs s !! x = None.
Proof. by intros ?%bool_decide_eq_true. Qed.

Lemma allowed_exists s x :
  bool_decide (is_Some (srefs s !! x)) = true → ∃ sp, handle s x = Some sp.
Proof.
  intros [r Hr]%bool_decide_eq_true. unfold handle. rewrite Hr. by eexists.
Qed.

(** One operation of a well-behaved client, from a plain state in good
    order: it returns, in a plain state in good order. *)
Lemma step_progress (m : mode) (op : SrefClient.op V) s :
  owned s → plain s → allowed s op = true →
  ∃ vs s', SrefClient.step m (λ p, p) op s = Ret (vs, s') ∧ owned s' ∧ plain s'.
Proof.
  intros Hs Hpl Hok.
  assert (Hup : ∀ p : N, p ≠ nullptr → (λ p, p) p ≠ nullptr) by done.
  assert (∃ vs s', SrefClient.step m (λ p, p) op s = Ret (vs, s') ∧ plain s')
    as (vs & s' & E & Hpl').
  2:{ exists vs, s'. split; [done|]. split; [|done].
      destruct (step_owned m (λ p, p) op s Hup Hs) as [E'|(vs' & s'' & E' & Hs')];
        congruence. }
  destruct op as [x v|x v|x y|x y|x y|x y|x|x f|x|x|x]; simpl in Hok;
    unfold SrefClient.step.
  - (* New *)
    apply allowed_fresh in Hok.
    erewrite bind_Ret by (by apply storage_free).
    erewrite bind_Ret by apply ctor_value_valid.
    eexists _, _. split; [reflexivity|].
    destruct s as [ob bl r]. simpl in *.
    eapply plain_step; [exact Hs|exact Hpl| |].
    + intros y sp Hy. rewrite lookup_insert in Hy. case_decide; [|by left].
      right. simplify_eq. intros cb'. unfold block. simpl.
      rewrite lookup_insert_eq. by intros [= <-].
    + intros c cb cb' Hc Hc'. rewrite lookup_insert in Hc'. case_decide.
      * subst c. by rewrite fresh_block in Hc.
      * congruence.
  - (* Raw *)
    apply allowed_fresh in Hok.
    erewrite bind_Ret by (by apply storage_free).
    erewrite bind_Ret by reflexivity.
    erewrite bind_Ret by (apply ctor_raw_valid; apply fresh_object).
    eexists _, _. split; [reflexivity|].
    destruct s as [ob bl r]. simpl in *.
    eapply plain_step; [exact Hs|exact Hpl| |].
    + intros y sp Hy. rewrite lookup_insert in Hy. case_decide; [|by left].
      right. simplify_eq. intros cb'. unfold block. simpl.
      rewrite lookup_insert_eq. by intros [= <-].
    + intros c cb cb' Hc Hc'. rewrite lookup_insert in Hc'. case_decide.
      * subst c. by rewrite fresh_block in Hc.
      * congruence.
  - (* Copy *)
    apply andb_prop in Hok as [Hx%allowed_fresh [sp Hy]%allowed_exists].
    destruct (owned_at _ _ _ Hs Hy) as (Hn & c & cb & Hc & Hb & Hblk & _).
    erewrite bind_Ret by (by apply storage_free).
    erewrite bind_Ret by (by eapply ctor_copy_valid).
    eexists _, _. split; [reflexivity|].
    destruct s as [ob bl r]. simpl in *.
    eapply plain_step; [exact Hs|exact Hpl| |].
    + intros z sp' Hz. rewrite lookup_insert in Hz. case_decide; [|by left].
      right. simplify_eq. intros cb'. unfold block. simpl. rewrite Hc. simpl.
      rewrite lookup_insert_eq. intros [= <-]. simpl.
      by apply (Hpl _ _ _ Hy Hblk).
    + intros c' cb0 cb' Hc0 Hc'. rewrite lookup_insert in Hc'. case_decide.
      * simplify_eq. done.
      * congruence.
  - (* Move *)
    apply andb_prop in Hok as [Hx%allowed_fresh [sp Hy]%allowed_exists].
    destruct (owned_at _ _ _ Hs Hy) as (Hn & c & cb & Hc & Hb & Hblk & _).
    erewrite bind_Ret by (by apply storage_free).
    rewrite bind_unfold, ctor_move_eq_copy.
    erewrite ctor_copy_valid by done.
    eexists _, _. split; [reflexivity|].
    destruct s as [ob bl r]. simpl in *.
    eapply plain_step; [exact Hs|exact Hpl| |].
    + intros z sp' Hz. rewrite lookup_insert in Hz. case_decide; [|by left].
      right. simplify_eq. intros cb'. unfold block. simpl. rewrite Hc. simpl.
      rewrite lookup_insert_eq. intros [= <-]. simpl.
      by apply (Hpl _ _ _ Hy Hblk).
    + intros c' cb0 cb' Hc0 Hc'. rewrite lookup_insert in Hc'. case_decide.
      * simplify_eq. done.
      * congruence.
  - (* Upcast *)
    apply andb_prop in Hok as [Hx%allowed_fresh [sp Hy]%allowed_exists].
    destruct (owned_at _ _ _ Hs Hy) as (Hn & c & cb & Hc & Hb & Hblk & _).
    erewrite bind_Ret by (by apply storage_free).
    erewrite bind_Ret by (eapply to_sref_valid; eauto; by apply N.eqb_neq).
    eexists _, _. split; [reflexivity|].
    destruct s as [ob bl r]. simpl in *.
    eapply plain_step; [exact Hs|exact Hpl| |].
    + intros z sp' Hz. rewrite lookup_insert in Hz. case_decide; [|by left].
      right. simplify_eq. intros cb'. unfold block. simpl. rewrite Hc. simpl.
      rewrite lookup_insert_eq. intros [= <-]. simpl.
      by apply (Hpl _ _ _ Hy Hblk).
    + intros c' cb0 cb' Hc0 Hc'. rewrite lookup_insert in Hc'. case_decide.
      * simplify_eq. done.
      * congruence.
  - (* Assign *)
    apply andb_prop in Hok as [[spx Hx]%allowed_exists [spy Hy]%allowed_exists].
    destruct (decide (x = y)) as [->|Hxy].
    { rewrite bind_unfold, assign_self. by eexists _, _. }
    destruct (owned_at _ _ _ Hs Hx) as (Hnx & cx & cbx & _ & _ & Hbx & Hpx & _ & [vx Hvx]).
    destruct (owned_at _ _ _ Hs Hy) as (Hny & cy & cby & _ & _ & Hby & Hpy & _ & [vy Hvy]).
    rewrite <-(Hpl _ _ _ Hx Hbx) in Hvx. rewrite <-(Hpl _ _ _ Hy Hby) in Hvy.
    erewrite bind_Ret by (by eapply assign_valid).
    eexists _, _. split; [reflexivity|].
    destruct s as [ob bl r]. simpl in *.
    eapply plain_step; [exact Hs|exact Hpl| |]; [by left|congruence].
  - (* Read *)
    apply allowed_exists in Hok as [sp Hx].
    destruct (owned_at _ _ _ Hs Hx) as (Hn & c & cb & _ & _ & Hb & Hp & _ & [v Hv]).
    rewrite <-(Hpl _ _ _ Hx Hb) in Hv.
    erewrite bind_Ret by (by eapply read_valid).
    by eexists _, _.
  - (* Modify *)
    apply allowed_exists in Hok as [sp Hx].
    destruct (owned_at _ _ _ Hs Hx) as (Hn & c & cb & _ & _ & Hb & Hp & _ & [v Hv]).
    rewrite <-(Hpl _ _ _ Hx Hb) in Hv.
    erewrite bind_Ret by (by eapply modify_valid).
    eexists _, _. split; [reflexivity|].
    destruct s as [ob bl r]. simpl in *.
    eapply plain_step; [exact Hs|exact Hpl| |]; [by left|congruence].
  - (* Arrow *)
    apply allowed_exists in Hok as [sp Hx].
    destruct (owned_at _ _ _ Hs Hx) as (Hn & c & cb & _ & _ & Hb & Hp & _).
    erewrite bind_Ret by (by eapply arrow_valid).
    by eexists _, _.
  - (* Sptr *)
    apply allowed_exists in Hok as [sp Hx].
    destruct (owned_at _ _ _ Hs Hx) as (Hn & c & cb & Hc & Hb & _).
    erewrite bind_Ret by (by eapply sptr_valid).
    eexists _, _. split; [reflexivity|].
    destruct s as [ob bl r]. simpl in *.
    eapply plain_step; [exact Hs|exact Hpl| |]; [by left|].
    intros c' cb0 cb' Hc0 Hc'. rewrite lookup_insert in Hc'. case_decide.
    + simplify_eq. done.
    + congruence.
  - (* Destroy *)
    apply allowed_exists in Hok as [sp Hx].
    destruct (owned_at _ _ _ Hs Hx) as (Hn & c & cb & Hc & Hb & _ & Hpos & Hm & Hl).
    destruct (decide (use_count cb = 1)) as [H1|H1].
    + erewrite bind_Ret by (by eapply dtor_last).
      eexists _, _. split; [reflexivity|].
      destruct s as [ob bl r]. simpl in *.
      eapply plain_step; [exact Hs|exact Hpl| |].
      * intros z sp' [_ Hz]%lookup_delete_Some. by left.
      * intros c' cb0 cb' Hc0 [_ Hc']%lookup_delete_Some. congruence.
    + erewrite bind_Ret by (eapply dtor_shared; eauto; lia).
      eexists _, _. split; [reflexivity|].
      destruct s as [ob bl r]. simpl in *.
      eapply plain_step; [exact Hs|exact Hpl| |].
      * intros z sp' [_ Hz]%lookup_delete_Some. by left.
      * intros c' cb0 cb' Hc0 Hc'. rewrite lookup_insert in Hc'. case_decide.
        -- simplify_eq. done.
        -- congruence.
Qed.


(** A program whose pointer conversions keep the address, started in a plain
    state in good order, has undefined behaviour only where the client itself
    is at fault: after a prefix that returned, the next operation builds over
    an existing object or uses one that does not exist. *)
Theorem sref_progress (m : mode) (ops : list (SrefClient.op V)) s :
  owned s → plain s →
  SrefClient.run m (λ p, p) ops s = Undefined →
  ∃ ops1 op ops2 vs s1,
    ops = ops1 ++ op :: ops2
    ∧ SrefClient.run m (λ p, p) ops1 s = Ret (vs, s1)
    ∧ allowed s1 op = false.
Proof.
  revert s. induction ops as [|op ops IH]; intros s Hs Hpl; simpl; [done|].
  destruct (allowed s op) eqn:Hok.
  2:{ intros _. by exists [], op, ops, [], s. }
  destruct (step_progress m op s Hs Hpl Hok) as (vs & s1 & E & Hs1 & Hpl1).
  erewrite bind_Ret by done.
  destruct (SrefClient.run m (λ p, p) ops s1) as [[ws s2]| |] eqn:E2.
  - by erewrite bind_Ret by done.
  - destruct (run_owned m (λ p, p) ops s1) as [E'|(? & ? & E' & _)];
      [done|done|congruence|congruence].
  - intros _. destruct (IH s1 Hs1 Hpl1 E2) as (ops1 & op' & ops2 & ws & s2 & -> & R & Hbad).
    exists (op :: ops1), op', ops2, (vs ++ ws), s2. simpl.
    split; [done|]. split; [|done].
    erewrite bind_Ret by done. by erewrite bind_Ret by done.
Qed.

(** From the empty state: a program returns, or its client was at fault. *)
Corollary sref_safe (m : mode) (ops : list (SrefClient.op V)) :
  (∃ vs s, SrefClient.run m (λ p, p) ops empty_state = Ret (vs, s)
           ∧ owned s)
  ∨ ∃ ops1 op ops2 vs s1,
      ops = ops1 ++ op :: ops2
      ∧ SrefClient.run m (λ p, p) ops1 empty_state = Ret (vs, s1)
      ∧ allowed s1 op = false.
Proof.
  destruct (sref_invariant m (λ p, p) ops (λ p H, H)) as [Hnt Hret].
  destruct (SrefClient.run m (λ p, p) ops empty_state) as [[vs s]| |] eqn:E.
  - left. exists vs, s. split; [done|]. by destruct (Hret vs s).
  - done.
  - right. by apply (sref_progress m ops empty_state owned_empty plain_empty).
Qed.

End SrefClient_progress.

(** The demonstration program returns what its reads saw, and ends with the
    one reference left and its object. *)
Lemma sref_ops_run :
  ∃ s, SrefClient.run Checked (λ p, p) sref_ops empty_state
       = Ret ([9%N; 27%N; 27%N], s)
       ∧ pointee s 7 = Some 27%N
       ∧ size (objects s) = 1 ∧ size (srefs s) = 1.
Proof. eexists. split; [vm_compute; reflexivity|]. by vm_compute. Qed.

(** ** sref: assignment through the reference *)

Section sref_assign.
Context {V : Type} `{!Copyable V, !Regular V}.

(** C4. For two distinct references A and B, [A = B] returns A and leaves
    the value of B's pointee in A's pointee.  A and B hold the shared
    pointers they held, no [sref] and no control block changes, and no
    object other than A's pointee is written.  [A = A] returns A and changes
    nothing at all. *)
Theorem assign_through (m : mode) (s : state V) (a b : N)
    (spa spb : shared_ptr) (cba cbb : control_block) (va vb : V) :
  a ≠ b →
  handle s a = Some spa → is_nullptr spa = false →
  block s spa = Some cba → 0 < use_count cba →
  objects s !! sp_get spa = Some va →
  handle s b = Some spb → is_nullptr spb = false →
  block s spb = Some cbb → 0 < use_count cbb →
  objects s !! sp_get spb = Some vb →
  (∃ s', Sref.assign m a b s = Ret (a, s')
         ∧ pointee s' a = Some vb
         ∧ handle s' a = Some spa
         ∧ handle s' b = Some spb
         ∧ srefs s' = srefs s
         ∧ blocks s' = blocks s
         ∧ ∀ p, p ≠ sp_get spa → objects s' !! p = objects s !! p)
  ∧ Sref.assign m a a s = Ret (a, s).
Proof using Type*.
  intros Hab Ha Hna Hba Hpa Hva Hb Hnb Hbb Hpb Hvb.
  split; [|apply assign_self].
  eexists. split; [by eapply assign_valid|].
  unfold pointee, handle in *. simpl.
  destruct (srefs s !! a) as [ra|]; [|done]. simpl in *.
  injection Ha as ->. simpl.
  rewrite lookup_insert_eq, copy_assign_eq.
  repeat split; try done.
  intros p Hp. by rewrite lookup_insert_ne.
Qed.

End sref_assign.

Lemma assign_through_witness :
  100%N ≠ 102%N
  ∧ pointee three_refs 100 = Some 9%N
  ∧ pointee three_refs 102 = Some 5%N
  ∧ ∃ s', Sref.assign Checked 100 102 three_refs = Ret (100%N, s')
          ∧ pointee s' 100 = Some 5%N
          ∧ handle s' 100 = handle three_refs 100.
Proof.
  split; [discriminate|]. split; [reflexivity|]. split; [reflexivity|].
  destruct (assign_through Checked three_refs 100 102
              (SharedPtr 1 (Some 0%N)) (SharedPtr 2 (Some 1%N))
              (ControlBlock 2 1) (ControlBlock 1 2) 9%N 5%N)
    as [(s' & H1 & H2 & H3 & _) _];
    [discriminate|reflexivity|reflexivity|reflexivity|simpl; lia|reflexivity
    |reflexivity|reflexivity|reflexivity|simpl; lia|reflexivity|].
  exists s'. split; [exact H1|]. split; [exact H2|exact H3].
Defined.

Section sref_alias.
Context {V : Type} `{!Copyable V}.

(** C10. The guard of [operator=] compares the addresses of the two [sref]
    objects.  For two distinct references A and B to one object, [A = B]
    is not skipped: it runs the pointee's assignment operator on the object,
    with the object itself as the right-hand side, and returns A.  When that
    self-assignment leaves the value as it is, so does [A = B]. *)
Theorem assign_alias_not_skipped (m : mode) (s : state V) (a b : N)
    (spa spb : shared_ptr) (cba cbb : control_block) (v : V) :
  a ≠ b →
  handle s a = Some spa → is_nullptr spa = false →
  block s spa = Some cba → 0 < use_count cba →
  handle s b = Some spb → is_nullptr spb = false →
  block s spb = Some cbb → 0 < use_count cbb →
  sp_get spa = sp_get spb →
  objects s !! sp_get spa = Some v →
  Sref.assign m a b s =
    Ret (a, State (<[sp_get spa := copy_assign v v]> (objects s))
               (blocks s) (srefs s))
  ∧ (copy_assign v v = v → Sref.assign m a b s = Ret (a, s)).
Proof.
  intros Hab Ha Hna Hba Hpa Hb Hnb Hbb Hpb Hsame Hv.
  assert (E : Sref.assign m a b s =
    Ret (a, State (<[sp_get spa := copy_assign v v]> (objects s))
               (blocks s) (srefs s))).
  { eapply assign_valid; try done. by rewrite <-Hsame. }
  split; [exact E|].
  intros Hreg. rewrite E, Hreg, insert_id by done. by rewrite state_eta.
Qed.

End sref_alias.

Lemma assign_alias_not_skipped_witness :
  100%N ≠ 101%N
  ∧ handle two_counted 100 = handle two_counted 101
  ∧ pointee two_counted 100 = Some (Counted 7 0)
  ∧ ∃ s', Sref.assign Checked 100 101 two_counted = Ret (100%N, s')
          ∧ pointee s' 100 = Some (Counted 7 1).
Proof.
  split; [discriminate|]. split; [reflexivity|]. split; [reflexivity|].
  destruct (assign_alias_not_skipped Checked two_counted 100 101
              (SharedPtr 1 (Some 0%N)) (SharedPtr 1 (Some 0%N))
              (ControlBlock 2 1) (ControlBlock 2 1) (Counted 7 0))
    as [H _];
    [discriminate|reflexivity|reflexivity|reflexivity|simpl; lia
    |reflexivity|reflexivity|reflexivity|simpl; lia|reflexivity|reflexivity|].
  eexists. split; [exact H|reflexivity].
Defined.

(** ** sref: copies, moves and conversions share the object *)

Section sref_sharing.
Context {V : Type} `{!Copyable V}.

Implicit Types (s : state V) (sp : shared_ptr) (cb : control_block).

(** C5. Copy construction of B from A leaves in B the shared pointer A
    holds: same stored pointer, same control block, with one owner more.
    No object and no control block is made.  What is then written through
    one of the two is what is read through the other. *)
Theorem copy_shares (m : mode) s (a b : N) sp cb (v : V) :
  srefs s !! b = None →
  handle s a = Some sp → is_nullptr sp = false →
  block s sp = Some cb → 0 < use_count cb →
  objects s !! sp_get sp = Some v →
  ∃ s', Sref.ctor_copy b a s = Ret ((), s')
        ∧ handle s' a = Some sp
        ∧ handle s' b = Some sp
        ∧ objects s' = objects s
        ∧ dom (blocks s') = dom (blocks s)
        ∧ block s' sp = Some (one_more cb)
        ∧ ∀ f : V → V,
            (∃ s'', Sref.modify m b f s' = Ret ((), s'')
                    ∧ Sref.read m a s'' = Ret (f v, s'')
                    ∧ Sref.read m b s'' = Ret (f v, s''))
            ∧ (∃ s'', Sref.modify m a f s' = Ret ((), s'')
                      ∧ Sref.read m b s'' = Ret (f v, s'')
                      ∧ Sref.read m a s'' = Ret (f v, s'')).
Proof.
  intros Hfresh Ha Hn Hb Hpos Hv.
  pose proof (handle_fresh _ _ _ _ Hfresh Ha) as Hne.
  destruct (block_Some _ _ _ Hb) as (c & Hc & Hbc).
  eexists. split; [by eapply ctor_copy_valid|].
  destruct s as [o bl r]. simpl in *.
  assert (Ha' : handle (State o (<[c := one_more cb]> bl)
                          (<[b := Sref (NotNull.mk sp)]> r)) a = Some sp).
  { by rewrite (handle_insert_ne o bl). }
  assert (Hb' : handle (State o (<[c := one_more cb]> bl)
                          (<[b := Sref (NotNull.mk sp)]> r)) b = Some sp).
  { apply handle_insert_eq. }
  assert (Hblk : block (State o (<[c := one_more cb]> bl)
                          (<[b := Sref (NotNull.mk sp)]> r)) sp
                 = Some (one_more cb)).
  { unfold block. rewrite Hc. simpl. apply lookup_insert_eq. }
  repeat split; try done.
  - apply dom_insert_lookup_L. by eexists.
  - eexists. split; [eapply modify_valid; try done; simpl; lia|].
    split; eapply read_valid; try done; simpl; try lia; apply lookup_insert_eq.
  - eexists. split; [eapply modify_valid; try done; simpl; lia|].
    split; eapply read_valid; try done; simpl; try lia; apply lookup_insert_eq.
Qed.

(** C9. Move construction does, in every state, what copy construction
    does.  The source holds afterwards the shared pointer it held, which is
    not null, the new reference holds the same one, the control block counts
    one owner more, and the source still dereferences to its object. *)
Theorem move_is_copy (m : mode) s (a b : N) sp cb :
  srefs s !! b = None →
  handle s a = Some sp → is_nullptr sp = false →
  block s sp = Some cb → 0 < use_count cb →
  (∀ t : state V, Sref.ctor_move b a t = Sref.ctor_copy b a t)
  ∧ ∃ s', Sref.ctor_move b a s = Ret ((), s')
          ∧ Sref.ctor_copy b a s = Ret ((), s')
          ∧ handle s' a = Some sp
          ∧ handle s' b = Some sp
          ∧ block s' sp = Some (one_more cb)
          ∧ objects s' = objects s
          ∧ Sref.star m a s' = Ret (sp_get sp, s')
          ∧ Sref.star m b s' = Ret (sp_get sp, s').
Proof.
  intros Hfresh Ha Hn Hb Hpos.
  split; [intros t; apply ctor_move_eq_copy|].
  pose proof (handle_fresh _ _ _ _ Hfresh Ha) as Hne.
  destruct (block_Some _ _ _ Hb) as (c & Hc & Hbc).
  eexists. split; [rewrite ctor_move_eq_copy; by eapply ctor_copy_valid|].
  split; [by eapply ctor_copy_valid|].
  destruct s as [o bl r]. simpl in *.
  assert (Ha' : handle (State o (<[c := one_more cb]> bl)
                          (<[b := Sref (NotNull.mk sp)]> r)) a = Some sp).
  { by rewrite (handle_insert_ne o bl). }
  assert (Hb' : handle (State o (<[c := one_more cb]> bl)
                          (<[b := Sref (NotNull.mk sp)]> r)) b = Some sp).
  { apply handle_insert_eq. }
  assert (Hblk : block (State o (<[c := one_more cb]> bl)
                          (<[b := Sref (NotNull.mk sp)]> r)) sp
                 = Some (one_more cb)).
  { unfold block. rewrite Hc. simpl. apply lookup_insert_eq. }
  repeat split; try done.
  - eapply star_valid; try done. simpl; lia.
  - eapply star_valid; try done. simpl; lia.
Qed.

(** C6. Converting the reference at [d] to a reference to a base type, built
    at [b], gives a reference that holds the same control block as [d] and
    the converted stored pointer.  No object and no control block is made,
    the block counts one owner more.  Whichever of the two references is
    destroyed first, the managed object is still there afterwards and the
    other reference still holds its share.  In a state in good order this
    goes on for as long as one of the two is left: destroy any references
    in any order, the one kept still holds its share and the object is
    still there, with its value. *)
Theorem upcast_shares (m : mode) (up : N → N) s (d b : N) sp cb (v : V) :
  (∀ p, p ≠ nullptr → up p ≠ nullptr) →
  srefs s !! b = None →
  handle s d = Some sp → is_nullptr sp = false →
  block s sp = Some cb → 0 < use_count cb →
  objects s !! managed cb = Some v →
  ∃ s', Sref.to_sref m up b d s = Ret ((), s')
        ∧ handle s' d = Some sp
        ∧ handle s' b = Some (SharedPtr (up (sp_get sp)) (sp_ctrl sp))
        ∧ block s' sp = Some (one_more cb)
        ∧ objects s' = objects s
        ∧ dom (blocks s') = dom (blocks s)
        ∧ (∃ s1, Sref.dtor d s' = Ret ((), s1)
                 ∧ objects s1 !! managed cb = Some v
                 ∧ objects s1 = objects s
                 ∧ handle s1 b = Some (SharedPtr (up (sp_get sp)) (sp_ctrl sp))
                 ∧ block s1 (SharedPtr (up (sp_get sp)) (sp_ctrl sp)) = Some cb)
        ∧ (∃ s2, Sref.dtor b s' = Ret ((), s2)
                 ∧ objects s2 !! managed cb = Some v
                 ∧ objects s2 = objects s
                 ∧ handle s2 d = Some sp
                 ∧ block s2 sp = Some cb)
        ∧ (owned s →
           owned s'
           ∧ ∀ (keep : N) (xs : list N),
               keep = d ∨ keep = b →
               NoDup xs → keep ∉ xs →
               (∀ x, x ∈ xs → is_Some (handle s' x)) →
               ∃ s'' sp' cb',
                 SrefClient.run m up (SrefClient.Destroy <$> xs) s' = Ret ([], s'')
                 ∧ handle s'' keep = Some sp'
                 ∧ block s'' sp' = Some cb'
                 ∧ 0 < use_count cb'
                 ∧ managed cb' = managed cb
                 ∧ objects s'' !! managed cb = Some v).
Proof.
  intros Hup Hfresh Hd Hn Hb Hpos Hv.
  pose proof (handle_fresh _ _ _ _ Hfresh Hd) as Hne.
  destruct (block_Some _ _ _ Hb) as (c & Hc & Hbc).
  assert (Hp : sp_get sp ≠ nullptr) by (by apply N.eqb_neq).
  eexists. split; [eapply to_sref_valid; eauto|].
  destruct s as [o bl r]. simpl in *.
  set (s' := State o (<[c := one_more cb]> bl)
               (<[b := Sref (NotNull.mk (sp_upcast up sp))]> r)).
  assert (Hd' : handle s' d = Some sp).
  { unfold s'. by rewrite (handle_insert_ne o bl). }
  assert (Hb' : handle s' b = Some (sp_upcast up sp)).
  { apply handle_insert_eq. }
  assert (Hblk : blocks s' !! c = Some (one_more cb)).
  { apply lookup_insert_eq. }
  assert (Hblk' : ∀ q, block s' (SharedPtr q (sp_ctrl sp)) = Some (one_more cb)).
  { intros q. unfold block. simpl. rewrite Hc. exact Hblk. }
  split; [done|]. split; [done|].
  split; [unfold block; rewrite Hc; exact Hblk|].
  split; [done|].
  split; [apply dom_insert_lookup_L; by eexists|].
  split; [|split].
  - eexists. split; [eapply dtor_shared; eauto; simpl; lia|]. simpl.
    split; [done|]. split; [done|].
    split; [by rewrite (handle_delete_ne o (<[c := one_more cb]> bl))|].
    unfold block. simpl. rewrite Hc. simpl.
    by rewrite one_fewer_more, insert_insert_eq, lookup_insert_eq.
  - eexists. split; [eapply (dtor_shared s' b); eauto; simpl; lia|]. simpl.
    split; [done|]. split; [done|].
    split.
    + rewrite (handle_delete_ne o (<[c := one_more cb]> bl)) by done.
      unfold handle. simpl. rewrite lookup_insert_ne by done.
      exact Hd.
    + unfold block. simpl. rewrite Hc. simpl.
      by rewrite one_fewer_more, insert_insert_eq, lookup_insert_eq.
  - intros Hs.
    assert (Hs' : owned s').
    { apply owned_share; try done. by apply N.eqb_neq, Hup. }
    split; [done|].
    intros keep xs Hkeep Hnd Hnotin Hxs.
    assert (∃ sp', handle s' keep = Some sp'
                   ∧ block s' sp' = Some (one_more cb)) as (sp' & Hk & Hkb).
    { destruct Hkeep as [->| ->].
      - exists sp. split; [done|]. unfold block. rewrite Hc. exact Hblk.
      - exists (sp_upcast up sp). split; [done|]. apply Hblk'. }
    destruct (destroy_any_order m up xs s' keep sp' (one_more cb)
                Hs' Hnd Hnotin Hxs Hk Hkb)
      as (s'' & E & _ & Hk'' & Ho'' & cb' & Hb'' & Hm'' & Hp'').
    exists s'', sp', cb'. simpl in *.
    split; [done|]. split; [done|]. split; [done|]. split; [done|].
    split; [done|]. by rewrite Ho''.
Qed.

End sref_sharing.

Lemma copy_shares_witness :
  srefs one_ref !! 101%N = None
  ∧ pointee one_ref 100 = Some 9%N
  ∧ ∃ s' s'',
      Sref.ctor_copy 101 100 one_ref = Ret ((), s')
      ∧ handle s' 101 = handle s' 100
      ∧ objects s' = objects one_ref
      ∧ Sref.modify Checked 101 (λ _, 42%N) s' = Ret ((), s'')
      ∧ Sref.read Checked 100 s'' = Ret (42%N, s'').
Proof.
  split; [reflexivity|]. split; [reflexivity|].
  destruct (copy_shares Checked one_ref 100 101 (SharedPtr 1 (Some 0%N))
              (ControlBlock 1 1) 9%N)
    as (s' & H1 & H2 & H3 & H4 & _ & _ & H5);
    [reflexivity|reflexivity|reflexivity|reflexivity|simpl; lia|reflexivity|].
  destruct (H5 (λ _, 42%N)) as [(s'' & H6 & H7 & _) _].
  exists s', s''. split; [exact H1|]. split; [by rewrite H2, H3|].
  split; [exact H4|]. split; [exact H6|exact H7].
Defined.

Lemma move_is_copy_witness :
  srefs one_ref !! 101%N = None
  ∧ handle one_ref 100 = Some (SharedPtr 1 (Some 0%N))
  ∧ ∃ s', Sref.ctor_move 101 100 one_ref = Ret ((), s')
          ∧ handle s' 100 = Some (SharedPtr 1 (Some 0%N))
          ∧ handle s' 101 = Some (SharedPtr 1 (Some 0%N)).
Proof.
  split; [reflexivity|]. split; [reflexivity|].
  destruct (move_is_copy Checked one_ref 100 101 (SharedPtr 1 (Some 0%N))
              (ControlBlock 1 1))
    as [_ (s' & H1 & _ & H2 & H3 & _)];
    [reflexivity|reflexivity|reflexivity|reflexivity|simpl; lia|].
  exists s'. split; [exact H1|]. split; [exact H2|exact H3].
Defined.

Lemma one_ref_owned : owned one_ref.
Proof.
  assert (E : SrefClient.run Checked (λ p, p) [SrefClient.New 100 9%N] empty_state
              = Ret ([], one_ref)) by (vm_compute; reflexivity).
  by destruct (proj2 (sref_invariant Checked (λ p, p) [SrefClient.New 100 9%N]
                        (λ p H, H)) _ _ E).
Qed.

Lemma upcast_shares_witness :
  srefs one_ref !! 101%N = None
  ∧ handle one_ref 100 = Some (SharedPtr 1 (Some 0%N))
  ∧ ∃ s' s1 s2 s3,
      Sref.to_sref Checked (λ p, p) 101 100 one_ref = Ret ((), s')
      ∧ handle s' 101 = handle s' 100
      ∧ Sref.dtor 100 s' = Ret ((), s1)
      ∧ pointee s1 101 = Some 9%N
      ∧ Sref.dtor 101 s' = Ret ((), s2)
      ∧ pointee s2 100 = Some 9%N
      ∧ SrefClient.run Checked (λ p, p) [SrefClient.Destroy 100] s' = Ret ([], s3)
      ∧ is_Some (handle s3 101)
      ∧ objects s3 !! 1%N = Some 9%N.
Proof.
  split; [reflexivity|]. split; [reflexivity|].
  destruct (upcast_shares Checked (λ p, p) one_ref 100 101
              (SharedPtr 1 (Some 0%N)) (ControlBlock 1 1) 9%N)
    as (s' & H1 & H2 & H3 & _ & _ & _ & (s1 & D1 & L1 & _ & B1 & _)
        & (s2 & D2 & L2 & _ & B2 & _) & Hany);
    [done|reflexivity|reflexivity|reflexivity|reflexivity|simpl; lia
    |reflexivity|].
  destruct (Hany one_ref_owned) as [_ Hany'].
  destruct (Hany' 101%N [100%N]) as (s3 & sp3 & cb3 & R & K & _ & _ & _ & L3).
  { by right. }
  { apply NoDup_singleton. }
  { intros [=]%list_elem_of_singleton. }
  { intros x ->%list_elem_of_singleton. rewrite H2. by eexists. }
  exists s', s1, s2, s3. split; [exact H1|]. split; [by rewrite H2, H3|].
  split; [exact D1|]. split; [unfold pointee; rewrite B1; exact L1|].
  split; [exact D2|]. split; [unfold pointee; rewrite B2; exact L2|].
  split; [exact R|]. split; [by eexists|exact L3].
Defined.

(** * Further properties *)

(** ** sref programs: no termination, no null, no dangling reference *)

Section sref_programs.
Context {V : Type} `{!Copyable V}.

Implicit Types (s : state V) (sp : shared_ptr) (cb : control_block).

(** An operation the client should not have run has undefined behaviour,
    but for [x = x] on an [x] that does not exist, which returns at the
    guard. *)
Lemma step_disallowed (m : mode) (up : N → N) (op : SrefClient.op V) s :
  owned s → allowed s op = false →
  SrefClient.step m up op s = Undefined
  ∨ SrefClient.step m up op s = Ret ([], s).
Proof.
  intros Hs Hbad.
  assert (Hno : ∀ x, bool_decide (is_Some (srefs s !! x)) = false →
                     srefs s !! x = None).
  { intros x Hx%bool_decide_eq_false. by apply eq_None_not_Some. }
  assert (Hused : ∀ x, bool_decide (srefs s !! x = None) = false →
                       is_Some (srefs s !! x)).
  { intros x Hx%bool_decide_eq_false. by apply not_eq_None_Some. }
  destruct op as [x v|x v|x y|x y|x y|x y|x|x f|x|x|x]; simpl in Hbad;
    unfold SrefClient.step.
  - left. apply bind_Undefined, storage_used. by apply Hused.
  - left. apply bind_Undefined, storage_used. by apply Hused.
  - left. apply andb_false_iff in Hbad as [Hx|Hy].
    + apply bind_Undefined, storage_used. by apply Hused.
    + destruct (srefs s !! x) eqn:Hx.
      { by apply bind_Undefined, storage_used. }
      erewrite bind_Ret by (by apply storage_free).
      apply bind_Undefined. unfold Sref.ctor_copy.
      apply bind_Undefined, member_None. by apply Hno.
  - left. apply andb_false_iff in Hbad as [Hx|Hy].
    + apply bind_Undefined, storage_used. by apply Hused.
    + destruct (srefs s !! x) eqn:Hx.
      { by apply bind_Undefined, storage_used. }
      erewrite bind_Ret by (by apply storage_free).
      apply bind_Undefined. unfold Sref.ctor_move.
      apply bind_Undefined, member_None. by apply Hno.
  - left. apply andb_false_iff in Hbad as [Hx|Hy].
    + apply bind_Undefined, storage_used. by apply Hused.
    + destruct (srefs s !! x) eqn:Hx.
      { by apply bind_Undefined, storage_used. }
      erewrite bind_Ret by (by apply storage_free).
      apply bind_Undefined. unfold Sref.to_sref.
      apply bind_Undefined, member_None. by apply Hno.
  - destruct (decide (x = y)) as [->|Hxy].
    { right. by rewrite bind_unfold, assign_self. }
    left. apply bind_Undefined. unfold Sref.assign.
    rewrite decide_False by done.
    destruct (srefs_lookup_cases s x) as [Hx|(spx & Hx & Hhx)].
    { apply bind_Undefined. by apply member_None. }
    destruct (owned_at _ _ _ Hs Hhx) as (Hnx & cx & cbx & _ & _ & Hbx & Hpx & _).
    erewrite bind_Ret by (destruct s; by apply member_at).
    erewrite bind_Ret by (by eapply NotNull_star_valid).
    apply bind_Undefined, member_None.
    apply andb_false_iff in Hbad as [Hx'|Hy]; [|by apply Hno].
    apply Hno in Hx'. congruence.
  - left. apply bind_Undefined. unfold Sref.read, Sref.star.
    do 2 apply bind_Undefined. apply member_None. by apply Hno.
  - left. apply bind_Undefined. unfold Sref.modify, Sref.star.
    do 2 apply bind_Undefined. apply member_None. by apply Hno.
  - left. apply bind_Undefined. unfold Sref.arrow.
    apply bind_Undefined, member_None. by apply Hno.
  - left. apply bind_Undefined. unfold Sref.sptr.
    apply bind_Undefined, member_None. by apply Hno.
  - left. apply bind_Undefined. unfold Sref.dtor.
    apply bind_Undefined, member_None. by apply Hno.
Qed.

Lemma step_plain (m : mode) (op : SrefClient.op V) s vs s' :
  owned s → plain s →
  SrefClient.step m (λ p, p) op s = Ret (vs, s') →
  owned s' ∧ plain s'.
Proof.
  intros Hs Hpl E. destruct (allowed s op) eqn:Hok.
  - destruct (step_progress m op s Hs Hpl Hok) as (vs' & s'' & E' & ? & ?).
    rewrite E' in E. by injection E as <- <-.
  - destruct (step_disallowed m (λ p, p) op s Hs Hok) as [E'|E'];
      rewrite E' in E; [done|]. by injection E as <- <-.
Qed.

Lemma run_plain (m : mode) (ops : list (SrefClient.op V)) s vs s' :
  owned s → plain s →
  SrefClient.run m (λ p, p) ops s = Ret (vs, s') →
  owned s' ∧ plain s'.
Proof.
  revert s vs s'. induction ops as [|op ops IH]; intros s vs s' Hs Hpl; simpl.
  - by intros [= <- <-].
  - rewrite bind_unfold.
    destruct (SrefClient.step m (λ p, p) op s) as [[ws s1]| |] eqn:E1; [|done..].
    destruct (step_plain m op s ws s1 Hs Hpl E1) as [Hs1 Hpl1].
    rewrite bind_unfold.
    destruct (SrefClient.run m (λ p, p) ops s1) as [[ws' s2]| |] eqn:E2; [|done..].
    intros [= <- <-]. by eapply IH.
Qed.



End sref_programs.


(** ** The unchecked build follows the checked build *)

Section builds.
Context {T : Type} `{!PointerLike T}.

Lemma agree_refl {A} (o : outcome A) : agree o o.
Proof. by intros _. Qed.

Lemma agree_outcome_bind {A B} (o1 o2 : outcome A) (f1 f2 : A → outcome B) :
  agree o1 o2 → (∀ a, o1 = Ret a → agree (f1 a) (f2 a)) →
  agree (o1 ≫= f1) (o2 ≫= f2).
Proof.
  unfold agree. intros H1 H2 Hnt. destruct o1 as [a| |]; simpl in *.
  - rewrite H1 by done. simpl. by apply H2.
  - done.
  - by rewrite H1.
Qed.

Lemma agree_ctor (u : T) : agree (NotNull.ctor Checked u) (NotNull.ctor Unchecked u).
Proof. unfold agree, NotNull.ctor. simpl. by destruct (is_nullptr u). Qed.

Lemma agree_ctor_fwd {U} `{!ConvertibleTo U T} (u : U) :
  agree (NotNull.ctor_fwd Checked u) (NotNull.ctor_fwd Unchecked u).
Proof. unfold agree, NotNull.ctor_fwd. simpl. by destruct (is_nullptr (convert u)). Qed.

Lemma agree_get (w : NotNull.t T) :
  agree (NotNull.get Checked w) (NotNull.get Unchecked w).
Proof. unfold agree, NotNull.get. simpl. by destruct (is_nullptr (NotNull.ptr_ w)). Qed.

Lemma agree_ctor_move (w : NotNull.t T) :
  agree (NotNull.ctor_move Checked w) (NotNull.ctor_move Unchecked w).
Proof.
  unfold NotNull.ctor_move, NotNull.to_T.
  apply agree_outcome_bind; [apply agree_get|].
  intros p _. unfold agree. simpl. by destruct (is_nullptr p).
Qed.

Lemma agree_ctor_conv `{!ConvertibleTo T T} (w : NotNull.t T) :
  agree (NotNull.ctor_conv Checked w) (NotNull.ctor_conv Unchecked w).
Proof.
  unfold NotNull.ctor_conv.
  apply agree_outcome_bind; [apply agree_get|]. intros u _. apply agree_ctor_fwd.
Qed.

Context `{!ConvertibleTo T T}.

Lemma agree_client_step (o : Client.op T) (st : gmap N (NotNull.t T)) :
  agree (Client.step Checked o st) (Client.step Unchecked o st).
Proof.
  destruct o as [x u|x u|x y|x y|x y|x y|x|x|x|x]; unfold Client.step;
    repeat (apply agree_outcome_bind;
            [first [apply agree_refl | apply agree_ctor | apply agree_ctor_fwd
                   | apply agree_get | apply agree_ctor_move
                   | apply agree_ctor_conv]
            |intros ? _]);
    apply agree_refl.
Qed.

(** X3. A program over [NotNull] objects that the checked build runs without
    reaching [std::terminate()] runs the same way in the unchecked build:
    same values read, same final store (or the same undefined behaviour of
    a client that uses an object that does not exist). *)
Theorem unchecked_follows_checked (ops : list (Client.op T))
    (st : gmap N (NotNull.t T)) :
  Client.run Checked ops st ≠ Terminate →
  Client.run Unchecked ops st = Client.run Checked ops st.
Proof.
  revert st. induction ops as [|o ops IH]; intros st; simpl; [done|].
  apply agree_outcome_bind; [apply agree_client_step|].
  intros [vs st1] _. simpl.
  apply agree_outcome_bind; [exact (IH st1)|]. intros ? _. apply agree_refl.
Qed.

End builds.

Lemma unchecked_follows_checked_witness :
  returns (Client.run Checked client_ops ∅) = true
  ∧ Client.run Unchecked client_ops ∅ = Ret ([7%N; 8%N; 8%N], client_store).
Proof.
  split; [reflexivity|].
  rewrite (unchecked_follows_checked client_ops ∅); [by vm_compute|].
  by vm_compute.
Defined.

Section sref_builds.
Context {V : Type} `{!Copyable V}.

Implicit Types (s : state V).

Lemma agree_bind {A B} (c1 c2 : M V A) (f1 f2 : A → M V B) s :
  agree (c1 s) (c2 s) →
  (∀ a s', c1 s = Ret (a, s') → agree (f1 a s') (f2 a s')) →
  agree ((c1 ≫= f1) s) ((c2 ≫= f2) s).
Proof.
  unfold agree. intros H1 H2 Hnt. rewrite !bind_unfold in *.
  destruct (c1 s) as [[a s']| |] eqn:E.
  - rewrite H1 by done. by apply H2.
  - done.
  - by rewrite H1.
Qed.

Lemma agree_lift {A} (o1 o2 : outcome A) s :
  agree o1 o2 → agree (lift (V:=V) o1 s) (lift o2 s).
Proof.
  unfold agree, lift. intros H Hnt. destruct o1; [|done|]; by rewrite H.
Qed.

Ltac agree_steps :=
  repeat (apply agree_bind;
          [first [apply agree_refl
                 | apply agree_lift; first [apply agree_get | apply agree_ctor]]
          |intros ? ? _]);
  try apply agree_refl.

Lemma agree_NotNull_star d s :
  agree (NotNull_star Checked d s) (NotNull_star Unchecked d s).
Proof. unfold NotNull_star. agree_steps. Qed.

Lemma agree_star x s : agree (Sref.star Checked x s) (Sref.star Unchecked x s).
Proof.
  unfold Sref.star. apply agree_bind; [apply agree_refl|].
  intros d s' _. apply agree_NotNull_star.
Qed.

Lemma agree_ctor_sptr x sp s :
  agree (Sref.ctor_sptr Checked x sp s) (Sref.ctor_sptr Unchecked x sp s).
Proof. unfold Sref.ctor_sptr. agree_steps. Qed.

Lemma agree_assign x y s :
  agree (Sref.assign Checked x y s) (Sref.assign Unchecked x y s).
Proof.
  unfold Sref.assign. case_decide; [apply agree_refl|].
  apply agree_bind; [apply agree_refl|]. intros d1 s1 _.
  apply agree_bind; [apply agree_NotNull_star|]. intros lhs s2 _.
  apply agree_bind; [apply agree_refl|]. intros d2 s3 _.
  apply agree_bind; [apply agree_NotNull_star|]. intros rhs s4 _.
  apply agree_refl.
Qed.

Lemma agree_step up (op : SrefClient.op V) s :
  agree (SrefClient.step Checked up op s) (SrefClient.step Unchecked up op s).
Proof.
  destruct op as [x v|x v|x y|x y|x y|x y|x|x f|x|x|x]; unfold SrefClient.step.
  - apply agree_bind; [apply agree_refl|]. intros _ s1 _.
    apply agree_bind; [|intros; apply agree_refl].
    unfold Sref.ctor_value. agree_steps.
  - apply agree_bind; [apply agree_refl|]. intros _ s1 _.
    apply agree_bind; [apply agree_refl|]. intros p s2 _.
    apply agree_bind; [|intros; apply agree_refl].
    unfold Sref.ctor_raw. agree_steps.
  - apply agree_refl.
  - apply agree_refl.
  - apply agree_bind; [apply agree_refl|]. intros _ s1 _.
    apply agree_bind; [|intros; apply agree_refl].
    unfold Sref.to_sref.
    apply agree_bind; [apply agree_refl|]. intros d s2 _.
    apply agree_bind; [apply agree_lift, agree_get|]. intros sp s3 _.
    apply agree_bind; [apply agree_refl|]. intros tmp s4 _.
    cbv zeta.
    apply agree_bind; [apply agree_ctor_sptr|]. intros; apply agree_refl.
  - apply agree_bind; [apply agree_assign|]. intros; apply agree_refl.
  - apply agree_bind; [|intros; apply agree_refl].
    unfold Sref.read. apply agree_bind; [apply agree_star|].
    intros; apply agree_refl.
  - apply agree_bind; [|intros; apply agree_refl].
    unfold Sref.modify. apply agree_bind; [apply agree_star|].
    intros; apply agree_refl.
  - apply agree_bind; [|intros; apply agree_refl].
    unfold Sref.arrow. agree_steps.
  - apply agree_bind; [|intros; apply agree_refl].
    unfold Sref.sptr, NotNull.to_T. agree_steps.
  - apply agree_refl.
Qed.

(** X4. A program of [sref] operations that the checked build runs without
    reaching [std::terminate()] runs the same way in the unchecked build,
    from any state: same values read, same final state. *)
Theorem sref_unchecked_follows_checked (up : N → N)
    (ops : list (SrefClient.op V)) s :
  SrefClient.run Checked up ops s ≠ Terminate →
  SrefClient.run Unchecked up ops s = SrefClient.run Checked up ops s.
Proof.
  revert s. induction ops as [|op ops IH]; intros s; simpl; [done|].
  apply agree_bind; [apply agree_step|]. intros vs s1 _.
  apply agree_bind; [exact (IH s1)|]. intros; apply agree_refl.
Qed.

End sref_builds.

Lemma sref_unchecked_follows_checked_witness :
  returns (SrefClient.run Checked (λ p, p) sref_ops empty_state) = true
  ∧ SrefClient.run Unchecked (λ p, p) sref_ops empty_state
    = SrefClient.run Checked (λ p, p) sref_ops empty_state.
Proof.
  split; [reflexivity|].
  apply (sref_unchecked_follows_checked (λ p, p) sref_ops empty_state).
  by vm_compute.
Defined.

(** ** sref: the constructors *)

Section sref_ctors.
Context {V : Type} `{!Copyable V}.

Implicit Types (s : state V) (sp : shared_ptr) (cb : control_block).

(** X5. Construction from a value returns in either build and in every
    state.  It makes one object, at an address that is not null and held
    none, with the value of the copy constructor, and one control block,
    with one owner, for it.  The new [sref] holds them; every other
    object, control block and [sref] is as it was. *)
Theorem ctor_value_fresh (m : mode) s (x : N) (v : V) :
  ∃ s' p c,
    Sref.ctor_value m x v s = Ret ((), s')
    ∧ p ≠ nullptr
    ∧ objects s !! p = None
    ∧ blocks s !! c = None
    ∧ handle s' x = Some (SharedPtr p (Some c))
    ∧ pointee s' x = Some (copy_construct v)
    ∧ block s' (SharedPtr p (Some c)) = Some (ControlBlock 1 p)
    ∧ (∀ q, q ≠ p → objects s' !! q = objects s !! q)
    ∧ (∀ c', c' ≠ c → blocks s' !! c' = blocks s !! c')
    ∧ (∀ y, y ≠ x → srefs s' !! y = srefs s !! y).
Proof.
  eexists _, (fresh ({[nullptr]} ∪ dom (objects s))), (fresh (dom (blocks s))).
  split; [apply ctor_value_valid|].
  destruct (fresh_object (objects s)) as [Hp Hfree].
  split; [done|]. split; [done|]. split; [apply fresh_block|].
  split; [unfold handle; simpl; by rewrite lookup_insert_eq|].
  split.
  { unfold pointee, handle. simpl. rewrite lookup_insert_eq. simpl.
    by rewrite lookup_insert_eq. }
  split; [unfold block; simpl; by rewrite lookup_insert_eq|].
  split; [intros q Hq; simpl; by rewrite lookup_insert_ne|].
  split; [intros c' Hc'; simpl; by rewrite lookup_insert_ne|].
  intros y Hy. simpl. by rewrite lookup_insert_ne.
Qed.

(** X6. Construction from a raw pointer that is not null takes the object
    over: the new [sref] points at it, through a new control block with one
    owner, and no object is made or changed.  Destroying that [sref] again
    deletes the object and leaves every other object, every control block
    and every [sref] as before the construction. *)
Theorem ctor_raw_owns (m : mode) s (x : N) (p : N) (v : V) :
  p ≠ nullptr →
  objects s !! p = Some v →
  srefs s !! x = None →
  ∃ s' c,
    Sref.ctor_raw m x p s = Ret ((), s')
    ∧ blocks s !! c = None
    ∧ handle s' x = Some (SharedPtr p (Some c))
    ∧ block s' (SharedPtr p (Some c)) = Some (ControlBlock 1 p)
    ∧ pointee s' x = Some v
    ∧ objects s' = objects s
    ∧ Sref.dtor x s' = Ret ((), State (delete p (objects s)) (blocks s) (srefs s)).
Proof.
  intros Hp Hv Hx. eexists _, (fresh (dom (blocks s))).
  split; [by apply ctor_raw_valid|].
  pose proof (fresh_block (blocks s)) as Hc.
  split; [done|].
  split; [unfold handle; simpl; by rewrite lookup_insert_eq|].
  split; [unfold block; simpl; by rewrite lookup_insert_eq|].
  split; [unfold pointee, handle; simpl; rewrite lookup_insert_eq; done|].
  split; [done|].
  destruct s as [o b r]. simpl in *.
  rewrite (dtor_last _ x (SharedPtr p (Some (fresh (dom b)))) (fresh (dom b))
             (ControlBlock 1 p)); simpl.
  - by rewrite !delete_insert_id.
  - unfold handle. simpl. by rewrite lookup_insert_eq.
  - done.
  - apply lookup_insert_eq.
  - done.
  - done.
  - by eexists.
Qed.

(** X7. A raw pointer that is null.  The checked build ends in
    [std::terminate()] in the constructor.  The unchecked build returns an
    [sref] whose shared pointer is null: its [operator->] returns [nullptr],
    [sptr()] returns the null handle, and [operator*], [get()] and
    [operator T&] dereference it, which is undefined.  On such an [sref]
    the accessors of a checked build end in [std::terminate()]. *)
Theorem ctor_raw_nullptr s (x : N) :
  Sref.ctor_raw Checked x nullptr s = Terminate
  ∧ ∃ s' sp,
      Sref.ctor_raw Unchecked x nullptr s = Ret ((), s')
      ∧ handle s' x = Some sp
      ∧ is_nullptr sp = true
      ∧ (∃ t, Sref.arrow Unchecked x s' = Ret (nullptr, t))
      ∧ (∃ t, Sref.sptr Unchecked x s' = Ret (sp, t))
      ∧ Sref.star Unchecked x s' = Undefined
      ∧ Sref.get Unchecked x s' = Undefined
      ∧ Sref.to_T Unchecked x s' = Undefined
      ∧ Sref.read Unchecked x s' = Undefined
      ∧ Sref.star Checked x s' = Terminate
      ∧ Sref.arrow Checked x s' = Terminate.
Proof.
  split; [reflexivity|].
  destruct s as [o b r].
  eexists _, (SharedPtr nullptr (Some (fresh (dom b)))).
  split; [reflexivity|].
  split; [unfold handle; simpl; by rewrite lookup_insert_eq|].
  split; [reflexivity|].
  assert (Hstar : Sref.star Unchecked x
            (State o (<[fresh (dom b) := ControlBlock 1 nullptr]> b)
               (<[x := Sref (NotNull.mk
                         (SharedPtr nullptr (Some (fresh (dom b)))))]> r))
          = Undefined).
  { unfold Sref.star.
    erewrite bind_Ret by (apply member_at, lookup_insert_eq).
    unfold NotNull_star.
    erewrite bind_Ret by reflexivity.
    erewrite bind_Ret by (eapply sp_copy_shared; [done|apply lookup_insert_eq]).
    reflexivity. }
  split.
  { eexists. unfold Sref.arrow.
    erewrite bind_Ret by (apply member_at, lookup_insert_eq).
    erewrite bind_Ret by reflexivity.
    erewrite bind_Ret by (eapply sp_copy_shared; [done|apply lookup_insert_eq]).
    erewrite bind_Ret
      by (eapply sp_drop_shared; [done|apply lookup_insert_eq|simpl; lia]).
    reflexivity. }
  split.
  { eexists. unfold Sref.sptr.
    erewrite bind_Ret by (apply member_at, lookup_insert_eq).
    erewrite bind_Ret by reflexivity.
    eapply sp_copy_shared; [done|apply lookup_insert_eq]. }
  split; [exact Hstar|]. split; [exact Hstar|]. split; [exact Hstar|].
  split; [unfold Sref.read; by rewrite bind_Undefined|].
  split.
  - unfold Sref.star.
    erewrite bind_Ret by (apply member_at, lookup_insert_eq). reflexivity.
  - unfold Sref.arrow.
    erewrite bind_Ret by (apply member_at, lookup_insert_eq). reflexivity.
Qed.

(** X8. The raw-pointer constructor trusts its caller.  Two [sref] objects
    built from one raw pointer own the object through two control blocks.
    Both read it; once one of them is destroyed the object is gone, reading
    through the other is undefined, and so is destroying it. *)
Theorem ctor_raw_twice (m : mode) s (x y : N) (p : N) (v : V) :
  x ≠ y →
  p ≠ nullptr →
  objects s !! p = Some v →
  ∃ s2 cx cy s3,
    (_ ← Sref.ctor_raw m x p; Sref.ctor_raw m y p) s = Ret ((), s2)
    ∧ handle s2 x = Some (SharedPtr p (Some cx))
    ∧ handle s2 y = Some (SharedPtr p (Some cy))
    ∧ cx ≠ cy
    ∧ Sref.read m x s2 = Ret (v, s2)
    ∧ Sref.read m y s2 = Ret (v, s2)
    ∧ Sref.dtor x s2 = Ret ((), s3)
    ∧ objects s3 !! p = None
    ∧ handle s3 y = Some (SharedPtr p (Some cy))
    ∧ Sref.read m y s3 = Undefined
    ∧ Sref.dtor y s3 = Undefined.
Proof.
  intros Hxy Hp Hv. destruct s as [o b r].
  set (cx := fresh (dom b)).
  set (b1 := <[cx := ControlBlock 1 p]> b).
  set (cy := fresh (dom b1)).
  set (b2 := <[cy := ControlBlock 1 p]> b1).
  set (spx := SharedPtr p (Some cx)). set (spy := SharedPtr p (Some cy)).
  set (r2 := <[y := Sref (NotNull.mk spy)]> (<[x := Sref (NotNull.mk spx)]> r)).
  assert (Hcxy : cx ≠ cy).
  { intros E. pose proof (fresh_block b1) as Hf. fold cy in Hf.
    rewrite <-E in Hf. unfold b1 in Hf. by rewrite lookup_insert_eq in Hf. }
  assert (Hnn : is_nullptr spx = false ∧ is_nullptr spy = false).
  { split; by apply N.eqb_neq. }
  destruct Hnn as [Hnx Hny].
  assert (Hbx : b2 !! cx = Some (ControlBlock 1 p)).
  { unfold b2. rewrite lookup_insert_ne by done. apply lookup_insert_eq. }
  assert (Hby : b2 !! cy = Some (ControlBlock 1 p)) by apply lookup_insert_eq.
  assert (Hhx : handle (State o b2 r2) x = Some spx).
  { unfold handle, r2. simpl. rewrite lookup_insert_ne by done.
    by rewrite lookup_insert_eq. }
  assert (Hhy : handle (State o b2 r2) y = Some spy).
  { unfold handle, r2. simpl. by rewrite lookup_insert_eq. }
  exists (State o b2 r2), cx, cy,
    (State (delete p o) (delete cx b2) (delete x r2)).
  split.
  { erewrite bind_Ret by (by apply ctor_raw_valid). by apply ctor_raw_valid. }
  split; [done|]. split; [done|]. split; [done|].
  split.
  { apply (read_valid m _ x spx (ControlBlock 1 p) v);
      [done|done|exact Hbx|simpl; lia|done]. }
  split.
  { apply (read_valid m _ y spy (ControlBlock 1 p) v);
      [done|done|exact Hby|simpl; lia|done]. }
  split.
  { apply (dtor_last (State o b2 r2) x spx cx (ControlBlock 1 p));
      [done|done|exact Hbx|done|done|by eexists]. }
  split; [simpl; apply lookup_delete_eq|].
  assert (Hhy3 : handle (State (delete p o) (delete cx b2) (delete x r2)) y
                 = Some spy).
  { by rewrite (handle_delete_ne o b2). }
  assert (Hby3 : delete cx b2 !! cy = Some (ControlBlock 1 p)).
  { by rewrite lookup_delete_ne. }
  split; [done|].
  split.
  - unfold Sref.read.
    erewrite bind_Ret.
    2:{ apply (star_valid m _ y spy (ControlBlock 1 p));
          [done|done|exact Hby3|simpl; lia]. }
    unfold load. simpl. by rewrite lookup_delete_eq.
  - unfold Sref.dtor.
    erewrite bind_Ret by (apply member_at; by apply handle_Some in Hhy3).
    apply bind_Undefined. unfold sp_drop. simpl. rewrite Hby3. simpl.
    apply N.eqb_neq in Hp. rewrite Hp. by rewrite lookup_delete_eq.
Qed.

End sref_ctors.

Lemma ctor_raw_owns_witness :
  1%N ≠ nullptr
  ∧ objects one_ref !! 1%N = Some 9%N
  ∧ srefs one_ref !! 7%N = None
  ∧ ∃ s', Sref.ctor_raw Checked 7 1 one_ref = Ret ((), s')
          ∧ pointee s' 7 = Some 9%N
          ∧ Sref.dtor 7 s'
            = Ret ((), State (delete 1%N (objects one_ref)) (blocks one_ref)
                         (srefs one_ref)).
Proof.
  split; [done|]. split; [reflexivity|]. split; [reflexivity|].
  destruct (ctor_raw_owns Checked one_ref 7 1 9%N)
    as (s' & c & H1 & _ & _ & _ & H2 & _ & H3); [done|reflexivity|reflexivity|].
  exists s'. split; [exact H1|]. split; [exact H2|exact H3].
Defined.

Lemma ctor_raw_twice_witness :
  7%N ≠ 8%N ∧ 1%N ≠ nullptr ∧ objects one_ref !! 1%N = Some 9%N
  ∧ ∃ s2 s3,
      (_ ← Sref.ctor_raw Checked 7 1; Sref.ctor_raw Checked 8 1) one_ref
      = Ret ((), s2)
      ∧ Sref.dtor 7 s2 = Ret ((), s3)
      ∧ Sref.read Checked 8 s3 = Undefined
      ∧ Sref.dtor 8 s3 = Undefined.
Proof.
  split; [done|]. split; [done|]. split; [reflexivity|].
  destruct (ctor_raw_twice Checked one_ref 7 8 1 9%N)
    as (s2 & cx & cy & s3 & H1 & _ & _ & _ & _ & _ & H2 & _ & _ & H3 & H4);
    [done|done|reflexivity|].
  exists s2, s3. split; [exact H1|]. split; [exact H2|]. split; [exact H3|exact H4].
Defined.

(** ** sref: the escape hatch and the accessors *)

Section sref_access.
Context {V : Type} `{!Copyable V}.

Implicit Types (s : state V) (sp : shared_ptr) (cb : control_block).

(** X9. [sptr()] hands out a copy of the shared pointer and adds one owner;
    nothing else changes.  The constructor from a shared pointer copies its
    argument, so the caller's handle stays a share of its own and the
    block counts two owners more.  Once the caller's handle is destroyed
    the outcome is the outcome of copy construction. *)
Theorem sptr_round_trip (m : mode) s (x y : N) sp cb :
  handle s x = Some sp → is_nullptr sp = false →
  block s sp = Some cb →
  (∃ s1 s2,
     Sref.sptr m x s = Ret (sp, s1)
     ∧ block s1 sp = Some (one_more cb)
     ∧ objects s1 = objects s ∧ srefs s1 = srefs s
     ∧ Sref.ctor_sptr m y sp s1 = Ret ((), s2)
     ∧ handle s2 y = Some sp
     ∧ block s2 sp = Some (one_more (one_more cb))
     ∧ objects s2 = objects s)
  ∧ (h ← Sref.sptr m x; _ ← Sref.ctor_sptr m y h; sp_drop h) s
    = Sref.ctor_copy y x s.
Proof.
  intros Hx Hn Hb. destruct (block_Some _ _ _ Hb) as (c & Hc & Hbc).
  destruct s as [o b r]. simpl in *.
  assert (E1 : Sref.sptr m x (State o b r)
               = Ret (sp, State o (<[c := one_more cb]> b) r)).
  { by eapply sptr_valid. }
  assert (E2 : Sref.ctor_sptr m y sp (State o (<[c := one_more cb]> b) r)
               = Ret ((), State o (<[c := one_more (one_more cb)]> b)
                            (<[y := Sref (NotNull.mk sp)]> r))).
  { erewrite ctor_sptr_valid; [|done|done|apply lookup_insert_eq]. simpl.
    by rewrite insert_insert_eq. }
  split.
  - eexists _, _. split; [exact E1|].
    split; [unfold block; simpl; rewrite Hc; simpl; apply lookup_insert_eq|].
    split; [done|]. split; [done|]. split; [exact E2|].
    split; [apply handle_insert_eq|].
    split; [unfold block; simpl; rewrite Hc; simpl; apply lookup_insert_eq|done].
  - erewrite bind_Ret by exact E1. erewrite bind_Ret by exact E2.
    erewrite sp_drop_shared; [|done|apply lookup_insert_eq|simpl; lia].
    erewrite ctor_copy_valid by done.
    by rewrite one_fewer_more, insert_insert_eq.
Qed.

(** X10. On an [sref] whose shared pointer is not null and shares a live
    control block, [operator->], [operator*], [get()] and [operator T&] all
    return the stored pointer, in either build, and leave the state as it
    was: the temporary copy of the shared pointer each of them makes is
    released before it returns. *)
Theorem accessors_agree (m : mode) s (x : N) sp cb :
  handle s x = Some sp → is_nullptr sp = false →
  block s sp = Some cb → 0 < use_count cb →
  Sref.arrow m x s = Ret (sp_get sp, s)
  ∧ Sref.star m x s = Ret (sp_get sp, s)
  ∧ Sref.get m x s = Ret (sp_get sp, s)
  ∧ Sref.to_T m x s = Ret (sp_get sp, s).
Proof.
  intros Hx Hn Hb Hp.
  split; [by eapply arrow_valid|]. by repeat split; eapply star_valid.
Qed.

End sref_access.

Lemma sptr_round_trip_witness :
  handle one_ref 100 = Some (SharedPtr 1 (Some 0%N))
  ∧ block one_ref (SharedPtr 1 (Some 0%N)) = Some (ControlBlock 1 1)
  ∧ (h ← Sref.sptr Checked 100; _ ← Sref.ctor_sptr Checked 101 h; sp_drop h)
      one_ref
    = Sref.ctor_copy 101 100 one_ref.
Proof.
  split; [reflexivity|]. split; [reflexivity|].
  apply (sptr_round_trip Checked one_ref 100 101 (SharedPtr 1 (Some 0%N))
           (ControlBlock 1 1)); reflexivity.
Defined.

Lemma accessors_agree_witness :
  handle one_ref 100 = Some (SharedPtr 1 (Some 0%N))
  ∧ block one_ref (SharedPtr 1 (Some 0%N)) = Some (ControlBlock 1 1)
  ∧ Sref.arrow Checked 100 one_ref = Ret (1%N, one_ref)
  ∧ Sref.get Checked 100 one_ref = Ret (1%N, one_ref).
Proof.
  split; [reflexivity|]. split; [reflexivity|].
  destruct (accessors_agree Checked one_ref 100 (SharedPtr 1 (Some 0%N))
              (ControlBlock 1 1)) as (H1 & _ & H2 & _);
    [reflexivity|reflexivity|reflexivity|simpl; lia|].
  split; [exact H1|exact H2].
Defined.

(** ** NotNull: converting construction and hashing *)

Section NotNull_conversions.
Context {T U : Type} `{!PointerLike T, !PointerLike U, !ConvertibleTo U T}.

(** X11. The converting constructor from a [NotNull<U>] checks twice in a
    checked build: it returns exactly when neither the payload read from the
    source nor the converted value is null, with the converted value as
    payload, and ends in [std::terminate()] otherwise.  In an unchecked
    build it always returns, with the converted payload, null or not. *)
Theorem ctor_conv_cases (other : NotNull.t U) :
  (∀ w, NotNull.ctor_conv Checked other = Ret w ↔
        is_nullptr (NotNull.ptr_ other) = false
        ∧ is_nullptr (convert (NotNull.ptr_ other) : T) = false
        ∧ w = NotNull.mk (convert (NotNull.ptr_ other)))
  ∧ (NotNull.ctor_conv (T:=T) Checked other = Terminate ↔
     is_nullptr (NotNull.ptr_ other) = true
     ∨ is_nullptr (convert (NotNull.ptr_ other) : T) = true)
  ∧ NotNull.ctor_conv Unchecked other
    = Ret (NotNull.mk (convert (NotNull.ptr_ other) : T)).
Proof.
  unfold NotNull.ctor_conv, NotNull.get, NotNull.ctor_fwd. simpl.
  destruct (is_nullptr (NotNull.ptr_ other)) eqn:E1; simpl;
    [|destruct (is_nullptr (convert (NotNull.ptr_ other))) eqn:E2];
    (split; [intros w; split; [intros [=]; subst; auto | intros (? & ? & ->); done]|]);
    (split; [split; [auto|]|done]); try done; intros [|]; done.
Qed.

End NotNull_conversions.

Section NotNull_hashing.
Context {T : Type} `{!PointerLike T, !Comparable T T, !Hashable T}.

(** X12. The hash of a wrapper is the hash of its payload.  So where the
    payload type's hash respects its [==], two wrappers that compare equal
    hash to the same value, as a hashed container needs. *)
Theorem hash_respects_eq (m : mode) (a b : NotNull.t T) :
  (∀ x y : T, cmp_eq x y = true → hash_of x = hash_of y) →
  NotNull.op_eq m a b = Ret true →
  NotNull_hash m a = Ret (hash_of (NotNull.ptr_ a))
  ∧ NotNull_hash m b = Ret (hash_of (NotNull.ptr_ b))
  ∧ NotNull_hash m a = NotNull_hash m b.
Proof.
  intros Hh. unfold NotNull.op_eq, NotNull_hash.
  destruct (NotNull.get m a) as [x| |] eqn:Ea; simpl; [|done..].
  destruct (NotNull.get m b) as [y| |] eqn:Eb; simpl; [|done..].
  intros [= Heq].
  apply get_Ret_inv in Ea as [-> _]. apply get_Ret_inv in Eb as [-> _].
  split; [done|]. split; [done|]. by rewrite (Hh _ _ Heq).
Qed.

End NotNull_hashing.

Lemma hash_respects_eq_witness :
  (∀ x y : shared_ptr, cmp_eq x y = true → hash_of x = hash_of y)
  ∧ NotNull.op_eq Checked (NotNull.mk (SharedPtr 4 (Some 0%N)))
      (NotNull.mk (SharedPtr 4 (Some 0%N))) = Ret true
  ∧ NotNull_hash Checked (NotNull.mk (SharedPtr 4 (Some 0%N))) = Ret 4%N.
Proof.
  assert (H : ∀ x y : shared_ptr, cmp_eq x y = true → hash_of x = hash_of y).
  { intros x y Hxy. by apply N.eqb_eq in Hxy. }
  split; [exact H|]. split; [reflexivity|].
  destruct (hash_respects_eq Checked (NotNull.mk (SharedPtr 4 (Some 0%N)))
              (NotNull.mk (SharedPtr 4 (Some 0%N))) H) as (H1 & _);
    [reflexivity|exact H1].
Defined.

(** ** sref programs: the use counts and the free store *)

Section sref_accounting.
Context {V : Type} `{!Copyable V}.

Implicit Types (s : state V) (sp : shared_ptr) (cb : control_block)
  (r : gmap N sref).

Lemma owners_pos_inv r c :
  0 < owners r c →
  ∃ x sp, r !! x = Some (Sref (NotNull.mk sp)) ∧ sp_ctrl sp = Some c.
Proof.
  unfold owners. intros Hpos.
  destruct (map_choose (filter (λ xr : N * sref,
              sp_ctrl (NotNull.ptr_ (data_ xr.2)) = Some c) r))
    as (x & [[sp]] & [Hx Hsp]%map_lookup_filter_Some).
  { intros Hemp. rewrite Hemp, map_size_empty in Hpos. lia. }
  by exists x, sp.
Qed.

Lemma owners_fresh_block s c :
  owned s → blocks s !! c = None → owners (srefs s) c = 0.
Proof.
  intros Hs Hc. destruct (owners (srefs s) c) eqn:E; [done|].
  destruct (owners_pos_inv (srefs s) c) as (x & sp & Hx & Hsp); [lia|].
  destruct (owned_at s x sp Hs) as (_ & c' & cb & Hc' & Hb & _).
  { unfold handle. by rewrite Hx. }
  congruence.
Qed.

Lemma change_owned s s' : owned s → change s s' → owned s'.
Proof.
  intros Hs Hch. destruct s as [o b r].
  destruct Hch as [|x p c v|x sp c cb|p v|x sp c cb|x sp c cb]; simpl in *.
  - done.
  - by apply owned_new.
  - by apply owned_share.
  - by apply owned_store.
  - by eapply owned_leave.
  - by eapply owned_last.
Qed.

Lemma change_tight s s' : owned s → tight s → change s s' → tight s'.
Proof.
  intros Hs [Hcount Hobj] Hch. destruct s as [o b r].
  destruct Hch as [|x p c v Hx Hp Hc Hnn|x sp c cb Hx Hn Hc Hb|p v Hp
                  |x sp c cb Hx Hc Hb Hcnt|x sp c cb Hx Hc Hb Hcnt];
    simpl in *.
  - done.
  - split; simpl.
    + intros c' cb' Hc'. rewrite owners_insert_fresh by done. simpl.
      destruct (decide (c' = c)) as [->|Hne].
      * rewrite lookup_insert_eq in Hc'. injection Hc' as <-.
        rewrite decide_True by done. simpl.
        by rewrite (owners_fresh_block (State o b r)).
      * rewrite lookup_insert_ne in Hc' by done.
        rewrite decide_False by congruence. by apply Hcount.
    + intros q Hq. destruct (decide (q = p)) as [->|Hne].
      * exists c, (ControlBlock 1 p). by rewrite lookup_insert_eq.
      * rewrite lookup_insert_ne in Hq by done.
        destruct (Hobj q Hq) as (c' & cb' & Hc' & Hm).
        exists c', cb'. split; [|done].
        rewrite lookup_insert_ne; [done|]. congruence.
  - split; simpl.
    + intros c' cb' Hc'. rewrite owners_insert_fresh by done.
      destruct (decide (c' = c)) as [->|Hne].
      * rewrite lookup_insert_eq in Hc'. injection Hc' as <-.
        rewrite decide_True by done. simpl. f_equal. by apply Hcount.
      * rewrite lookup_insert_ne in Hc' by done.
        rewrite decide_False by congruence. by apply Hcount.
    + intros q Hq. destruct (Hobj q Hq) as (c' & cb' & Hc' & Hm).
      destruct (decide (c' = c)) as [->|Hne].
      * exists c, (one_more cb). rewrite lookup_insert_eq. split; [done|].
        simpl. congruence.
      * exists c', cb'. by rewrite lookup_insert_ne.
  - split; simpl; [done|].
    intros q Hq. apply Hobj. destruct (decide (q = p)) as [->|Hne]; [done|].
    by rewrite lookup_insert_ne in Hq.
  - split; simpl.
    + intros c' cb' Hc'.
      pose proof (owners_delete r x sp c' Hx) as Hd.
      destruct (decide (c' = c)) as [->|Hne].
      * rewrite lookup_insert_eq in Hc'. injection Hc' as <-.
        rewrite decide_True in Hd by done. simpl.
        rewrite (Hcount _ _ Hb), Hd. done.
      * rewrite lookup_insert_ne in Hc' by done.
        rewrite decide_False in Hd by congruence. rewrite <-Hd.
        by apply Hcount.
    + intros q Hq. destruct (Hobj q Hq) as (c' & cb' & Hc' & Hm).
      destruct (decide (c' = c)) as [->|Hne].
      * exists c, (one_fewer cb). rewrite lookup_insert_eq. split; [done|].
        simpl. congruence.
      * exists c', cb'. by rewrite lookup_insert_ne.
  - split; simpl.
    + intros c' cb' [Hne Hc']%lookup_delete_Some.
      pose proof (owners_delete r x sp c' Hx) as Hd.
      rewrite decide_False in Hd by congruence. rewrite <-Hd.
      by apply Hcount.
    + intros q Hq. apply lookup_delete_is_Some in Hq as [Hne Hq].
      destruct (Hobj q Hq) as (c' & cb' & Hc' & Hm).
      exists c', cb'. split; [|done].
      rewrite lookup_delete_ne; [done|]. intros <-. congruence.
Qed.

(** What an operation other than [sptr()] does to a state in good order. *)
Lemma step_change (m : mode) (up : N → N) (op : SrefClient.op V) s vs s' :
  (∀ p, p ≠ nullptr → up p ≠ nullptr) →
  owned s →
  sptr_free [op] = true →
  SrefClient.step m up op s = Ret (vs, s') →
  change s s'.
Proof.
  intros Hup Hs Hfree.
  destruct op as [x v|x v|x y|x y|x y|x y|x|x f|x|x|x]; unfold SrefClient.step;
    try done.
  - (* New *)
    destruct (srefs s !! x) eqn:Hx.
    { by rewrite bind_Undefined by (by apply storage_used). }
    erewrite bind_Ret by (by apply storage_free).
    erewrite bind_Ret by apply ctor_value_valid.
    intros [= <- <-]. apply change_new; try done; try apply fresh_object.
    apply fresh_block.
  - (* Raw *)
    destruct (srefs s !! x) eqn:Hx.
    { by rewrite bind_Undefined by (by apply storage_used). }
    erewrite bind_Ret by (by apply storage_free).
    erewrite bind_Ret by reflexivity.
    erewrite bind_Ret by (apply ctor_raw_valid; apply fresh_object).
    intros [= <- <-].
    apply (change_new s x (fresh ({[nullptr]} ∪ dom (objects s)))
             (fresh (dom (blocks s))) v); try done; try apply fresh_object.
    apply fresh_block.
  - (* Copy *)
    destruct (srefs s !! x) eqn:Hx.
    { by rewrite bind_Undefined by (by apply storage_used). }
    erewrite bind_Ret by (by apply storage_free).
    destruct (srefs_lookup_cases s y) as [Hy|(sp & Hy & Hh)].
    { rewrite bind_Undefined; [done|]. unfold Sref.ctor_copy.
      apply bind_Undefined. by apply member_None. }
    destruct (owned_at _ _ _ Hs Hh) as (Hn & c & cb & Hc & Hb & _).
    erewrite bind_Ret by (by eapply ctor_copy_valid).
    intros [= <- <-]. by eapply change_share.
  - (* Move *)
    destruct (srefs s !! x) eqn:Hx.
    { by rewrite bind_Undefined by (by apply storage_used). }
    erewrite bind_Ret by (by apply storage_free).
    destruct (srefs_lookup_cases s y) as [Hy|(sp & Hy & Hh)].
    { rewrite bind_Undefined; [done|]. unfold Sref.ctor_move.
      apply bind_Undefined. by apply member_None. }
    destruct (owned_at _ _ _ Hs Hh) as (Hn & c & cb & Hc & Hb & _).
    rewrite bind_unfold, ctor_move_eq_copy.
    erewrite ctor_copy_valid by done.
    intros [= <- <-]. by eapply change_share.
  - (* Upcast *)
    destruct (srefs s !! x) eqn:Hx.
    { by rewrite bind_Undefined by (by apply storage_used). }
    erewrite bind_Ret by (by apply storage_free).
    destruct (srefs_lookup_cases s y) as [Hy|(sp & Hy & Hh)].
    { rewrite bind_Undefined; [done|]. unfold Sref.to_sref.
      apply bind_Undefined. by apply member_None. }
    destruct (owned_at _ _ _ Hs Hh) as (Hn & c & cb & Hc & Hb & _).
    assert (Hp : up (sp_get sp) ≠ nullptr) by (by apply Hup, N.eqb_neq).
    erewrite bind_Ret by (by eapply to_sref_valid).
    intros [= <- <-].
    apply (change_share s x (sp_upcast up sp) c cb); try done.
    by apply N.eqb_neq.
  - (* Assign *)
    destruct (decide (x = y)) as [->|Hxy].
    { rewrite bind_unfold, assign_self. intros [= <- <-]. apply change_none. }
    destruct (srefs_lookup_cases s x) as [Hx|(spx & Hx & Hhx)].
    { rewrite bind_Undefined; [done|]. unfold Sref.assign.
      rewrite decide_False by done. apply bind_Undefined. by apply member_None. }
    destruct (owned_at _ _ _ Hs Hhx) as (Hnx & cx & cbx & _ & _ & Hbx & Hpx & _).
    destruct (srefs_lookup_cases s y) as [Hy|(spy & Hy & Hhy)].
    { rewrite bind_Undefined; [done|]. unfold Sref.assign.
      rewrite decide_False by done.
      erewrite bind_Ret by (destruct s; by apply member_at).
      erewrite bind_Ret by (by eapply NotNull_star_valid).
      apply bind_Undefined. by apply member_None. }
    destruct (owned_at _ _ _ Hs Hhy) as (Hny & cy & cby & _ & _ & Hby & Hpy & _).
    destruct (objects s !! sp_get spy) as [vy|] eqn:Hvy.
    2:{ rewrite bind_Undefined; [done|]. unfold Sref.assign.
        rewrite decide_False by done.
        erewrite bind_Ret by (destruct s; by apply member_at).
        erewrite bind_Ret by (by eapply NotNull_star_valid).
        erewrite bind_Ret by (destruct s; by apply member_at).
        erewrite bind_Ret by (by eapply NotNull_star_valid).
        apply bind_Undefined. unfold load. by rewrite Hvy. }
    destruct (objects s !! sp_get spx) as [vx|] eqn:Hvx.
    2:{ rewrite bind_Undefined; [done|]. unfold Sref.assign.
        rewrite decide_False by done.
        erewrite bind_Ret by (destruct s; by apply member_at).
        erewrite bind_Ret by (by eapply NotNull_star_valid).
        erewrite bind_Ret by (destruct s; by apply member_at).
        erewrite bind_Ret by (by eapply NotNull_star_valid).
        erewrite bind_Ret by (destruct s; by apply load_live).
        apply bind_Undefined. unfold load. by rewrite Hvx. }
    erewrite bind_Ret by (by eapply assign_valid).
    intros [= <- <-]. apply change_store. by rewrite Hvx.
  - (* Read *)
    destruct (srefs_lookup_cases s x) as [Hx|(sp & Hx & Hh)].
    { rewrite bind_Undefined; [done|]. unfold Sref.read, Sref.star.
      do 2 apply bind_Undefined. by apply member_None. }
    destruct (owned_at _ _ _ Hs Hh) as (Hn & c & cb & _ & _ & Hb & Hpos & _).
    destruct (objects s !! sp_get sp) as [v|] eqn:Hv.
    2:{ rewrite bind_Undefined; [done|]. unfold Sref.read.
        erewrite bind_Ret by (by eapply star_valid).
        unfold load. by rewrite Hv. }
    erewrite bind_Ret by (by eapply read_valid).
    intros [= <- <-]. apply change_none.
  - (* Modify *)
    destruct (srefs_lookup_cases s x) as [Hx|(sp & Hx & Hh)].
    { rewrite bind_Undefined; [done|]. unfold Sref.modify, Sref.star.
      do 2 apply bind_Undefined. by apply member_None. }
    destruct (owned_at _ _ _ Hs Hh) as (Hn & c & cb & _ & _ & Hb & Hpos & _).
    destruct (objects s !! sp_get sp) as [v|] eqn:Hv.
    2:{ rewrite bind_Undefined; [done|]. unfold Sref.modify.
        erewrite bind_Ret by (by eapply star_valid).
        apply bind_Undefined. unfold load. by rewrite Hv. }
    erewrite bind_Ret by (by eapply modify_valid).
    intros [= <- <-]. apply change_store. by rewrite Hv.
  - (* Arrow *)
    destruct (srefs_lookup_cases s x) as [Hx|(sp & Hx & Hh)].
    { rewrite bind_Undefined; [done|]. unfold Sref.arrow.
      apply bind_Undefined. by apply member_None. }
    destruct (owned_at _ _ _ Hs Hh) as (Hn & c & cb & _ & _ & Hb & Hpos & _).
    erewrite bind_Ret by (by eapply arrow_valid).
    intros [= <- <-]. apply change_none.
  - (* Destroy *)
    destruct (srefs_lookup_cases s x) as [Hx|(sp & Hx & Hh)].
    { rewrite bind_Undefined; [done|]. unfold Sref.dtor.
      apply bind_Undefined. by apply member_None. }
    destruct (owned_at _ _ _ Hs Hh)
      as (Hn & c & cb & Hc & Hb & _ & Hpos & Hm & Hl).
    destruct (decide (use_count cb = 1)) as [H1|H1].
    + erewrite bind_Ret by (by eapply dtor_last).
      intros [= <- <-]. by eapply change_last.
    + erewrite bind_Ret by (eapply dtor_shared; eauto; lia).
      intros [= <- <-]. eapply change_leave; eauto. lia.
Qed.

Lemma run_tight (m : mode) (up : N → N) (ops : list (SrefClient.op V)) s vs s' :
  (∀ p, p ≠ nullptr → up p ≠ nullptr) →
  owned s → tight s → sptr_free ops = true →
  SrefClient.run m up ops s = Ret (vs, s') →
  owned s' ∧ tight s'.
Proof.
  intros Hup. revert s vs s'.
  induction ops as [|op ops IH]; intros s vs s' Hs Ht Hfree; simpl.
  - by intros [= <- <-].
  - apply andb_prop in Hfree as [Hop Hfree].
    rewrite bind_unfold.
    destruct (SrefClient.step m up op s) as [[ws s1]| |] eqn:E1; [|done..].
    assert (Hch : change s s1).
    { eapply step_change; eauto. simpl. by rewrite Hop. }
    rewrite bind_unfold.
    destruct (SrefClient.run m up ops s1) as [[ws' s2]| |] eqn:E2; [|done..].
    intros [= <- <-].
    apply (IH s1 ws' s2);
      [by eapply change_owned|by eapply change_tight|exact Hfree|exact E2].
Qed.

Lemma tight_empty : tight (empty_state (V:=V)).
Proof.
  split; simpl.
  - intros c cb. by rewrite lookup_empty.
  - intros p [v Hv]. by rewrite lookup_empty in Hv.
Qed.

(** X13. In a program that runs from the empty state and hands no shared
    pointer out through [sptr()], every member function gives back the
    shares it takes: when the program returns, each control block counts
    exactly the [sref] objects that share it, every object on the free
    store is reached from an [sref], and once no [sref] is left the free
    store is empty. *)
Theorem sref_no_leak (m : mode) (up : N → N) (ops : list (SrefClient.op V))
    vs s :
  (∀ p, p ≠ nullptr → up p ≠ nullptr) →
  sptr_free ops = true →
  SrefClient.run m up ops empty_state = Ret (vs, s) →
  (∀ x sp c cb, handle s x = Some sp → sp_ctrl sp = Some c →
                blocks s !! c = Some cb → use_count cb = owners (srefs s) c)
  ∧ (∀ p, is_Some (objects s !! p) →
          ∃ x sp cb, handle s x = Some sp ∧ block s sp = Some cb
                     ∧ managed cb = p)
  ∧ (srefs s = ∅ → objects s = ∅ ∧ blocks s = ∅).
Proof.
  intros Hup Hfree E.
  destruct (run_tight m up ops empty_state vs s Hup owned_empty tight_empty
              Hfree E) as [Hs [Hcount Hobj]].
  assert (Hreach : ∀ c cb, blocks s !! c = Some cb →
            ∃ x sp, handle s x = Some sp ∧ sp_ctrl sp = Some c).
  { intros c cb Hc. destruct Hs as [_ H2 _].
    destruct (H2 _ _ Hc) as (_ & Hpos & _).
    rewrite (Hcount _ _ Hc) in Hpos.
    destruct (owners_pos_inv _ _ Hpos) as (x & sp & Hx & Hsp).
    exists x, sp. split; [|done]. unfold handle. by rewrite Hx. }
  split; [|split].
  - intros x sp c cb _ _ Hc. by apply Hcount.
  - intros p Hp. destruct (Hobj p Hp) as (c & cb & Hc & Hm).
    destruct (Hreach c cb Hc) as (x & sp & Hx & Hsp).
    exists x, sp, cb. split; [done|]. split; [|done].
    unfold block. rewrite Hsp. done.
  - intros Hnone.
    assert (Hb : blocks s = ∅).
    { apply map_empty. intros c. destruct (blocks s !! c) as [cb|] eqn:Hc; [|done].
      destruct (Hreach c cb Hc) as (x & sp & Hx%handle_Some & _).
      by rewrite Hnone, lookup_empty in Hx. }
    split; [|done].
    apply map_empty. intros p. destruct (objects s !! p) as [v|] eqn:Hp; [|done].
    destruct (Hobj p) as (c & cb & Hc & _); [by eexists|].
    by rewrite Hb, lookup_empty in Hc.
Qed.

End sref_accounting.

Lemma sref_no_leak_witness :
  sptr_free (sref_ops ++ [SrefClient.Destroy 7]) = true
  ∧ ∃ s, SrefClient.run Checked (λ p, p) (sref_ops ++ [SrefClient.Destroy 7])
           empty_state = Ret ([9%N; 27%N; 27%N], s)
         ∧ srefs s = ∅ ∧ objects s = ∅ ∧ blocks s = ∅.
Proof.
  split; [reflexivity|].
  destruct (SrefClient.run Checked (λ p, p) (sref_ops ++ [SrefClient.Destroy 7])
              empty_state) as [[vs s]| |] eqn:E;
    [|by vm_compute in E|by vm_compute in E].
  assert (Hvs : vs = [9%N; 27%N; 27%N]) by (vm_compute in E; congruence).
  assert (Hr : srefs s = ∅) by (vm_compute in E; by injection E as _ <-).
  subst vs. exists s. split; [reflexivity|]. split; [exact Hr|].
  destruct (sref_no_leak Checked (λ p, p)
              (sref_ops ++ [SrefClient.Destroy 7]) [9%N; 27%N; 27%N] s)
    as (_ & _ & H); [done|reflexivity|exact E|].
  exact (H Hr).
Defined.

(** ** sref: identity *)

Section sref_identity.
Context {V : Type} `{!Copyable V}.

(** X14. In the state a program with address-keeping upcasts returns in,
    the [NotNull] members of two [sref] objects compare equal with [==]
    exactly when the two share a control block, that is, own the same
    object; [!=] says the opposite. *)
Theorem data_eq_same_object (m : mode) (ops : list (SrefClient.op V)) vs
    (s : state V) (x y : N) spx spy :
  SrefClient.run m (λ p, p) ops empty_state = Ret (vs, s) →
  handle s x = Some spx → handle s y = Some spy →
  NotNull.op_eq m (NotNull.mk spx) (NotNull.mk spy)
  = Ret (bool_decide (sp_ctrl spx = sp_ctrl spy))
  ∧ NotNull.op_ne m (NotNull.mk spx) (NotNull.mk spy)
    = Ret (negb (bool_decide (sp_ctrl spx = sp_ctrl spy))).
Proof.
  intros E Hx Hy.
  destruct (run_plain m ops empty_state vs s owned_empty plain_empty E)
    as [Hs Hpl].
  destruct (owned_at _ _ _ Hs Hx) as (Hnx & cx & cbx & Hcx & Hbx & Hblx & _).
  destruct (owned_at _ _ _ Hs Hy) as (Hny & cy & cby & Hcy & Hby & Hbly & _).
  pose proof (Hpl _ _ _ Hx Hblx) as Hpx. pose proof (Hpl _ _ _ Hy Hbly) as Hpy.
  destruct (compare_valid m (NotNull.mk spx) (NotNull.mk spy) Hnx Hny)
    as (-> & -> & _).
  simpl.
  assert (Heq : N.eqb (sp_get spx) (sp_get spy)
                = bool_decide (sp_ctrl spx = sp_ctrl spy)).
  { destruct (decide (sp_ctrl spx = sp_ctrl spy)) as [Hc|Hc].
    - rewrite bool_decide_eq_true_2 by done. apply N.eqb_eq.
      assert (cx = cy) by congruence. subst cy.
      assert (cbx = cby) by congruence. subst cby. congruence.
    - rewrite bool_decide_eq_false_2 by done. apply N.eqb_neq.
      intros Hp. apply Hc. rewrite Hcx, Hcy. f_equal.
      destruct Hs as [_ _ H3]. apply (H3 cx cy cbx cby Hbx Hby). congruence. }
  by rewrite Heq.
Qed.

(** X15. The constructor from a shared pointer, given one that is null
    (empty, or sharing a control block): the checked build ends in
    [std::terminate()]; the unchecked build returns an [sref] that holds the
    null shared pointer. *)
Theorem ctor_sptr_null (s : state V) (x : N) sp :
  is_nullptr sp = true →
  sp_ctrl sp = None ∨ is_Some (block s sp) →
  Sref.ctor_sptr Checked x sp s = Terminate
  ∧ ∃ s', Sref.ctor_sptr Unchecked x sp s = Ret ((), s')
          ∧ handle s' x = Some sp
          ∧ objects s' = objects s.
Proof.
  intros Hn Hc. unfold Sref.ctor_sptr.
  assert (∃ s1, sp_copy sp s = Ret (sp, s1) ∧ objects s1 = objects s)
    as (s1 & E & Ho).
  { destruct Hc as [Hc|[cb Hb]].
    - exists s. unfold sp_copy. by rewrite Hc.
    - destruct (block_Some _ _ _ Hb) as (c & Hc & Hbc).
      destruct s as [o b r]. eexists. split; [by eapply sp_copy_shared|done]. }
  split.
  - erewrite bind_Ret by exact E. unfold NotNull.ctor, lift. simpl.
    by rewrite bind_unfold, Hn.
  - erewrite bind_Ret by exact E. erewrite bind_Ret by reflexivity.
    eexists. split; [reflexivity|]. split; [apply handle_insert_eq|done].
Qed.

End sref_identity.

Lemma data_eq_same_object_witness :
  (∃ s, SrefClient.run Checked (λ p, p)
          [SrefClient.New 1 9%N; SrefClient.Copy 2 1; SrefClient.New 3 9%N]
          empty_state = Ret ([], s)
        ∧ handle s 1 = Some (SharedPtr 1 (Some 0%N))
        ∧ handle s 2 = Some (SharedPtr 1 (Some 0%N))
        ∧ handle s 3 = Some (SharedPtr 2 (Some 1%N)))
  ∧ NotNull.op_eq Checked (NotNull.mk (SharedPtr 1 (Some 0%N)))
      (NotNull.mk (SharedPtr 1 (Some 0%N))) = Ret true
  ∧ NotNull.op_eq Checked (NotNull.mk (SharedPtr 1 (Some 0%N)))
      (NotNull.mk (SharedPtr 2 (Some 1%N))) = Ret false.
Proof.
  destruct (SrefClient.run Checked (λ p, p)
              [SrefClient.New 1 9%N; SrefClient.Copy 2 1; SrefClient.New 3 9%N]
              empty_state) as [[vs s]| |] eqn:E;
    [|by vm_compute in E|by vm_compute in E].
  assert (Hvs : vs = []) by (vm_compute in E; congruence). subst vs.
  assert (H1 : handle s 1 = Some (SharedPtr 1 (Some 0%N)))
    by (vm_compute in E; by injection E as <-).
  assert (H2 : handle s 2 = Some (SharedPtr 1 (Some 0%N)))
    by (vm_compute in E; by injection E as <-).
  assert (H3 : handle s 3 = Some (SharedPtr 2 (Some 1%N)))
    by (vm_compute in E; by injection E as <-).
  split; [by exists s|].
  split.
  - by destruct (data_eq_same_object Checked _ _ s 1 2 _ _ E H1 H2) as [-> _].
  - by destruct (data_eq_same_object Checked _ _ s 1 3 _ _ E H1 H3) as [-> _].
Defined.

Lemma ctor_sptr_null_witness :
  is_nullptr (SharedPtr nullptr None) = true
  ∧ Sref.ctor_sptr (V:=N) Checked 1 (SharedPtr nullptr None) empty_state
    = Terminate.
Proof.
  split; [reflexivity|].
  by destruct (ctor_sptr_null (V:=N) empty_state 1 (SharedPtr nullptr None)
                 eq_refl (or_introl eq_refl)).
Defined.
